(** * Out-of-band invitation manager

    A shallow embedding of
    [aries_cloudagent/protocols/out_of_band/v1_0/manager.py]
    (class [OutOfBandManager]) and the properties of its invitation and
    connection-reuse engine.

    Python coroutines become functions in a state-and-exception monad over
    a [World]: the connection store, the per-connection metadata, the
    responder's outbox and the state of the collaborating managers.  An
    exception does not roll the world back, so a raised result still
    carries the world reached when it was raised. *)

From Stdlib Require Import Ascii String.
From stdpp Require Import gmap strings list fin_maps.

Local Open Scope string_scope.

Set Warnings "-clear-no-such-hyp".

(** ** Data model *)

(** [HSProto]: the handshake protocols an invitation can name. *)
Inductive HSProto := RFC160 | RFC23.

(** [ConnRecord.State].  A record stores the RFC 160 name of its state;
    ["active"] is the RFC 160 name of [COMPLETED]. *)
Inductive State := INIT | INVITATION | REQUEST | RESPONSE | COMPLETED | ABANDONED.

#[global] Instance State_eq_dec : EqDecision State.
Proof. solve_decision. Defined.

Record ConnRecord := {
  connection_id : string;
  state : State;
  their_public_did : option string;
  their_did : option string;
  my_did : option string;
  invitation_msg_id : option string;
}.

(** The [~thread] decorator of a message. *)
Record Thread := { thid : option string; pthid : option string }.

Record ServiceMessage := {
  recipient_keys : list string;
  routing_keys : list string;
  service_endpoint : string;
}.

(** An entry of [invitation.services]: an inline block or a bare DID. *)
Inductive ServiceItem :=
| InlineService (s : ServiceMessage)
| ServiceDid (did : string).

(** The decoded content of an attachment: its ["@type"], its ["@id"] and
    the rest of the message. *)
Record AttachContent := {
  content_type : string;
  content_id : string;
  content_body : string;
}.

(** An entry of [invitation.requests_attach]: an [AttachDecorator], whose
    [data] may be missing, or something else. *)
Inductive ReqAttach :=
| AttachDecorator (data : option AttachContent)
| NotAttachDecorator.

Record InvitationMessage := {
  _id : string;
  label : string;
  handshake_protocols : list string;
  requests_attach : list ReqAttach;
  services : list ServiceItem;
  _trace : option string;
}.

(** The same invitation with other attachments. *)
Definition with_requests_attach (attachments : list ReqAttach) (i : InvitationMessage)
    : InvitationMessage :=
  {| _id := _id i;
     label := label i;
     handshake_protocols := handshake_protocols i;
     requests_attach := attachments;
     services := services i;
     _trace := _trace i |}.

(** The legacy invitation built for the RFC 160 strategy. *)
Record ConnectionInvitation := {
  ci_id : string;
  ci_type : string;
  ci_label : string;
  ci_recipient_keys : list string;
  ci_service_endpoint : string;
  ci_routing_keys : list string;
}.

Record MessageReceipt := { sender_did : string }.

(** Exchange records handed to and returned by the credential and
    presentation managers. *)
Record CredExRecord := {
  cred_connection_id : string;
  cred_offer : AttachContent;
  cred_trace : bool;
}.

Record PresExRecord := {
  pres_connection_id : string;
  pres_thread_id : string;
  pres_request : AttachContent;
  pres_service : ServiceMessage;
  auto_present : bool;
  pres_trace : bool;
}.

(** The response-only view [create_invitation] returns. *)
Record InvitationRecord := {
  invi_state : string;
  invi_msg_id : string;
  invitation : InvitationMessage;
  invitation_url : string;
}.

(** What the responder is asked to send. *)
Inductive Message :=
| HandshakeReuse (id : string) (thread : Thread)
| HandshakeReuseAccept (id : string) (thread : Thread)
| CredentialRequest (body : string)
| Presentation (body : string).

(** ** Exceptions *)

Inductive Exc :=
| StorageNotFoundError
| TimeoutError
| AssertionError
| ValueError
| OtherError (what : string)
| OutOfBandManagerError (why : Failure)
with Failure :=
(* create_invitation *)
| MustIncludeProtocolsOrAttachments
| PublicWithMultiUse
| PublicWithMetadata
(* receive_invitation *)
| ServiceArrayNotSingleton
| MustSpecifyProtocolsOrAttachments
| NoExistingConnectionNoHandshake
| UnsupportedAttachType (type : string)
| AttachNotProperlyFormatted
(* attachment handlers *)
| CannotAutoRespondPresentation
| AutoPresentFalse
| AutoPresentFalse20
| AutoOfferFalse
(* reuse *)
| HandshakeReuseFailed (err : Exc)
| NoConnRecordForInvitee (sender : string)
| ReuseAcceptedFailed (invi_msg_id : option string) (err : Exc)
| ProblemReportFailed (invi_msg_id : option string) (err : Exc).

(** The error kinds of the specification's taxonomy, and the kind of each
    place that raises [OutOfBandManagerError]. *)
Inductive ErrorKind :=
| InvalidInvitationShape
| UnsupportedAttachmentType
| ConfigurationRejected
| AutoRespondDisabled
| CannotAutoPresent
| NoExistingConnection
| ReuseNegotiationFailed
| NoHandshakeProtocolAvailable.

Definition kind (why : Failure) : ErrorKind :=
  match why with
  | MustIncludeProtocolsOrAttachments => InvalidInvitationShape
  | PublicWithMultiUse => ConfigurationRejected
  | PublicWithMetadata => ConfigurationRejected
  | ServiceArrayNotSingleton => InvalidInvitationShape
  | MustSpecifyProtocolsOrAttachments => InvalidInvitationShape
  | NoExistingConnectionNoHandshake => NoHandshakeProtocolAvailable
  | UnsupportedAttachType _ => UnsupportedAttachmentType
  | AttachNotProperlyFormatted => InvalidInvitationShape
  | CannotAutoRespondPresentation => CannotAutoPresent
  | AutoPresentFalse => AutoRespondDisabled
  | AutoPresentFalse20 => AutoRespondDisabled
  | AutoOfferFalse => AutoRespondDisabled
  | HandshakeReuseFailed _ => ReuseNegotiationFailed
  | NoConnRecordForInvitee _ => NoExistingConnection
  | ReuseAcceptedFailed _ _ => ReuseNegotiationFailed
  | ProblemReportFailed _ _ => ReuseNegotiationFailed
  end.

(** The text each place raises with (interpolated values left out). *)
Definition message (why : Failure) : string :=
  match why with
  | MustIncludeProtocolsOrAttachments =>
      "Invitation must include handshake protocols, request attachments, or both"
  | PublicWithMultiUse => "Cannot create public invitation with multi_use"
  | PublicWithMetadata => "Cannot store metadata on public invitations"
  | ServiceArrayNotSingleton => "service array must have exactly one element"
  | MustSpecifyProtocolsOrAttachments =>
      "Invitation must specify handshake_protocols, requests_attach, or both"
  | NoExistingConnectionNoHandshake =>
      "No existing connection exists and handshake_protocol is missing"
  | UnsupportedAttachType _ => "Unsupported requests~attach type"
  | AttachNotProperlyFormatted => "requests~attach is not properly formatted"
  | CannotAutoRespondPresentation =>
      "Cannot auto-respond to presentation request attachment"
  | AutoPresentFalse =>
      "Configuration sets auto_present false: cannot respond automatically to presentation requests"
  | AutoPresentFalse20 =>
      "Configuration set auto_present false: cannot respond automatically to presentation requests"
  | AutoOfferFalse =>
      "Configuration sets auto_offer false: cannot respond automatically to credential offers"
  | HandshakeReuseFailed _ =>
      "Error on creating and sending a handshake reuse message"
  | NoConnRecordForInvitee _ => "No existing ConnRecord found for OOB Invitee"
  | ReuseAcceptedFailed _ _ => "Error processing reuse accepted message"
  | ProblemReportFailed _ _ => "Error processing problem report message"
  end.

(** ** The world and the monad *)

(** Messages that other tasks of the agent handle while a coroutine of the
    manager is suspended in a bounded wait: a [HandshakeReuseAccept] or a
    problem report on a connection, a handshake message that moves a
    connection to another state, or nothing for one unit of time. *)
Inductive Inbound :=
| InReuseAccepted (conn_id : string) (thread : Thread) (receipt : MessageReceipt)
| InProblemReport (conn_id : string) (thread : Thread) (receipt : MessageReceipt)
| InHandshakeProgress (conn_id : string) (st : State)
| InNothing.

(** Whether an inbound message is a reply to a reuse message. *)
Definition is_reply (ev : Inbound) : bool :=
  match ev with
  | InReuseAccepted _ _ _ | InProblemReport _ _ _ => true
  | InHandshakeProgress _ _ | InNothing => false
  end.

(** The connection store ([conn_records], in the order a query lists
    them, and [conn_metadata], keyed by connection id and metadata key),
    what the responder was given to send, the inbound messages still to
    be handled, the number of message identifiers drawn so far, and the
    state of the credential and presentation managers. *)
Record World (E : Type) := mkWorld {
  conn_records : list ConnRecord;
  conn_metadata : gmap (string * string) string;
  outbox : list (Message * list string);
  inbound : list Inbound;
  uuids : nat;
  ext : E;
}.
Arguments mkWorld {E}.
Arguments conn_records {E}.
Arguments conn_metadata {E}.
Arguments outbox {E}.
Arguments inbound {E}.
Arguments uuids {E}.
Arguments ext {E}.

Inductive Res (A : Type) :=
| Ok (a : A)
| Raise (e : Exc).
Arguments Ok {A}.
Arguments Raise {A}.

Definition M (E A : Type) : Type := World E -> Res A * World E.

Definition ret {E A} (a : A) : M E A := fun w => (Ok a, w).

Definition raise {E A} (e : Exc) : M E A := fun w => (Raise e, w).

Definition bind {E A B} (m : M E A) (k : A -> M E B) : M E B :=
  fun w =>
    match m w with
    | (Ok a, w') => k a w'
    | (Raise e, w') => (Raise e, w')
    end.

(** [try: body except handler]. *)
Definition try_except {E A} (body : M E A) (handler : Exc -> M E A) : M E A :=
  fun w =>
    match body w with
    | (Ok a, w') => (Ok a, w')
    | (Raise e, w') => handler e w'
    end.

Declare Scope oob_scope.
Delimit Scope oob_scope with oob.
Notation "x <- m ;; k" := (bind m (fun x => k))
  (at level 20, m at level 99, k at level 200, only parsing) : oob_scope.
Notation "' p <- m ;; k" := (bind m (fun x => let 'p := x in k))
  (at level 20, p pattern, m at level 99, k at level 200, only parsing) : oob_scope.
Local Open Scope oob_scope.

Definition assert {E} (b : bool) : M E unit :=
  if b then ret tt else raise AssertionError.

(** ** The profile and the collaborators *)

(** The entries of [profile.settings] the manager reads. *)
Record Settings := {
  debug_auto_accept_requests : bool;
  debug_auto_accept_invites : bool;
  debug_auto_respond_credential_offer : bool;
  debug_auto_respond_presentation_request : bool;
}.

(** [responder] tells whether [profile.inject_or(BaseResponder)] yields a
    responder. *)
Record Profile := {
  settings : Settings;
  responder : bool;
}.

(** What the manager imports from the rest of the agent: message-type
    constants, pure helpers, and the managers it delegates to.  The
    credential and presentation managers act on their own state [E]; the
    handshake strategies act on the whole world, as they store connection
    records and send messages of their own. *)
Class Collaborators (E : Type) := {
  PRESENTATION_REQUEST : string;
  PRES_20_REQUEST : string;
  CREDENTIAL_OFFER : string;
  CRED_20_OFFER : string;
  (* DIDCommPrefix *)
  unqualify : string -> string;
  qualify_current : string -> string;
  (* HSProto.get, HSProto.name *)
  HSProto_get : string -> option HSProto;
  HSProto_name : HSProto -> string;
  (* DIDKey.from_public_key_b58(key, ED25519).did, DIDKey.from_did(key).public_key_b58 *)
  from_public_key_b58 : string -> string;
  from_did : string -> string;
  (* the identifier given to the n-th message built by the manager *)
  uuid4 : nat -> string;
  (* ConnRecord.is_ready *)
  is_ready : ConnRecord -> bool;
  (* mediation_record_if_id(profile, mediation_id, or_default) *)
  mediation_record_if_id : option string -> bool -> World E -> Res (option string);
  resolve_invitation : string -> World E -> Res (string * list string * list string);
  fetch_connection_targets : ConnRecord -> World E -> Res (list string);
  (* DIDXManager.receive_invitation, ConnectionManager.receive_invitation *)
  didx_receive_invitation :
    InvitationMessage -> option string -> option bool -> option string ->
    option string -> M E (option ConnRecord);
  conn_receive_invitation :
    ConnectionInvitation -> option string -> option bool -> option string ->
    option string -> M E (option ConnRecord);
  (* V10CredManager, V20CredManager *)
  v10_receive_offer : AttachContent -> bool -> string -> E -> Res CredExRecord * E;
  v10_create_request : CredExRecord -> option string -> E -> Res (CredExRecord * string) * E;
  v20_receive_offer : AttachContent -> bool -> string -> E -> Res CredExRecord * E;
  v20_create_request : CredExRecord -> option string -> E -> Res (CredExRecord * string) * E;
  (* PresentationManager, V20PresManager, and the indy helpers *)
  indy_proof_request_of : AttachContent -> Res string;
  indy_proof_req_preview2indy_requested_creds : string -> E -> Res string;
  v10_receive_request : PresExRecord -> E -> Res PresExRecord * E;
  v10_create_presentation : PresExRecord -> string -> E -> Res (PresExRecord * string) * E;
  v20_receive_pres_request : PresExRecord -> E -> Res PresExRecord * E;
  v20_create_pres : PresExRecord -> E -> Res (PresExRecord * string) * E;
}.

(** ** The connection store *)

Section Store.
Context {E : Type}.

Definition with_conn_records (f : list ConnRecord -> list ConnRecord) (w : World E) : World E :=
  mkWorld (f (conn_records w)) (conn_metadata w) (outbox w) (inbound w) (uuids w) (ext w).

Definition with_conn_metadata
    (f : gmap (string * string) string -> gmap (string * string) string)
    (w : World E) : World E :=
  mkWorld (conn_records w) (f (conn_metadata w)) (outbox w) (inbound w) (uuids w) (ext w).

Definition with_outbox
    (f : list (Message * list string) -> list (Message * list string))
    (w : World E) : World E :=
  mkWorld (conn_records w) (conn_metadata w) (f (outbox w)) (inbound w) (uuids w) (ext w).

Definition with_inbound (f : list Inbound -> list Inbound) (w : World E) : World E :=
  mkWorld (conn_records w) (conn_metadata w) (outbox w) (f (inbound w)) (uuids w) (ext w).

Definition with_uuids (f : nat -> nat) (w : World E) : World E :=
  mkWorld (conn_records w) (conn_metadata w) (outbox w) (inbound w) (f (uuids w)) (ext w).

Definition with_ext (f : E -> E) (w : World E) : World E :=
  mkWorld (conn_records w) (conn_metadata w) (outbox w) (inbound w) (uuids w) (f (ext w)).

(** A read of the world that may fail. *)
Definition ask {A} (f : World E -> Res A) : M E A := fun w => (f w, w).

(** A call into a manager that owns the state [E]. *)
Definition call {A} (f : E -> Res A * E) : M E A :=
  fun w => let '(r, e) := f (ext w) in (r, with_ext (fun _ => e) w).

(** Modelled from the spec: [ConnRecord.metadata_get], [metadata_set] and
    [metadata_delete], the per-connection key/value storage of the
    Connection Store (the class [ConnRecord] is not part of the sources
    at hand).  Metadata lives in the store under the connection id, not
    in the record object; a key that is absent reads as [None]. *)
Definition metadata_get (c : ConnRecord) (key : string) : M E (option string) :=
  fun w => (Ok (conn_metadata w !! (connection_id c, key)), w).

Definition metadata_set (c : ConnRecord) (key value : string) : M E unit :=
  fun w => (Ok tt, with_conn_metadata (insert (connection_id c, key) value) w).

Definition metadata_delete (c : ConnRecord) (key : string) : M E unit :=
  fun w => (Ok tt, with_conn_metadata (delete (connection_id c, key)) w).

(** Modelled from the spec: [ConnRecord.save], which stores the record
    under its connection id, replacing the stored copy if there is one. *)
Fixpoint put_record (c : ConnRecord) (l : list ConnRecord) : list ConnRecord :=
  match l with
  | [] => [c]
  | r :: l' =>
      if String.eqb (connection_id r) (connection_id c) then c :: l'
      else r :: put_record c l'
  end.

Definition save (c : ConnRecord) : M E unit :=
  fun w => (Ok tt, with_conn_records (put_record c) w).

(** Modelled from the spec: [ConnRecord.retrieve_by_id], a point lookup
    that raises [StorageNotFoundError] for an unknown id. *)
Definition find_record (id : string) (l : list ConnRecord) : option ConnRecord :=
  List.find (fun r => String.eqb (connection_id r) id) l.

Definition retrieve_by_id (id : string) : M E ConnRecord :=
  fun w =>
    match find_record id (conn_records w) with
    | Some c => (Ok c, w)
    | None => (Raise StorageNotFoundError, w)
    end.

(** The tags the manager filters on. *)
Inductive Tag := TheirPublicDid | TheirDid | InvitationMsgId.

Definition tag_value (t : Tag) (c : ConnRecord) : option string :=
  match t with
  | TheirPublicDid => their_public_did c
  | TheirDid => their_did c
  | InvitationMsgId => invitation_msg_id c
  end.

Definition matches (filter : list (Tag * option string)) (c : ConnRecord) : bool :=
  forallb (fun '(t, v) => bool_decide (tag_value t c = v)) filter.

(** Modelled from the spec: [ConnRecord.query], the query by tag and
    filter of the Connection Store, which returns an ordered list: the
    stored records that match every entry of both filters. *)
Definition query (tag_filter post_filter : list (Tag * option string)) :
    M E (list ConnRecord) :=
  fun w =>
    (Ok (List.filter (fun c => matches tag_filter c && matches post_filter c)
           (conn_records w)), w).

(** [responder.send(message, target_list=...)]. *)
Definition send (m : Message) (target_list : list string) : M E unit :=
  fun w => (Ok tt, with_outbox (fun o => (o ++ [(m, target_list)])%list) w).

End Store.

(** ** The manager *)

Section OutOfBandManager.
Context {E : Type} `{Collaborators E}.
Variable profile : Profile.

Definition set_state (c : ConnRecord) (st : State) : ConnRecord :=
  {| connection_id := connection_id c;
     state := st;
     their_public_did := their_public_did c;
     their_did := their_did c;
     my_did := my_did c;
     invitation_msg_id := invitation_msg_id c |}.

(** A fresh message identifier, as the constructor of a message draws. *)
Definition new_id : M E string :=
  fun w => (Ok (uuid4 (uuids w)), with_uuids S w).

(** *** find_existing_connection *)

Definition find_existing_connection
    (tag_filter post_filter : list (Tag * option string)) : M E (option ConnRecord) :=
  conn_records <- query tag_filter post_filter ;;
  ret (List.find (fun conn_rec => bool_decide (state conn_rec = COMPLETED)) conn_records).

(** *** receive_reuse_accepted_message, receive_problem_report *)

Definition receive_reuse_accepted_message
    (reuse_accepted_msg : Thread) (receipt : MessageReceipt) (conn_record : ConnRecord)
    : M E unit :=
  let invi_msg_id := pthid reuse_accepted_msg in
  try_except
    (let thread_reuse_msg_id := thid reuse_accepted_msg in
     conn_reuse_msg_id <- metadata_get conn_record "reuse_msg_id" ;;
     _ <- assert (bool_decide (thread_reuse_msg_id = conn_reuse_msg_id)) ;;
     metadata_set conn_record "reuse_msg_state" "accepted")
    (fun e => raise (OutOfBandManagerError (ReuseAcceptedFailed invi_msg_id e))).

Definition receive_problem_report
    (problem_report : Thread) (receipt : MessageReceipt) (conn_record : ConnRecord)
    : M E unit :=
  let invi_msg_id := pthid problem_report in
  try_except
    (let thread_reuse_msg_id := thid problem_report in
     conn_reuse_msg_id <- metadata_get conn_record "reuse_msg_id" ;;
     _ <- assert (bool_decide (thread_reuse_msg_id = conn_reuse_msg_id)) ;;
     metadata_set conn_record "reuse_msg_state" "not_accepted")
    (fun e => raise (OutOfBandManagerError (ProblemReportFailed invi_msg_id e))).

(** *** Suspension points

    The manager runs on a cooperative scheduler: while one of its
    coroutines polls inside [asyncio.wait_for], the handlers of inbound
    messages run.  One unit of the time bound lets the next entry of
    [inbound] be handled; a handler that raises fails its own task and
    leaves the waiting coroutine alone. *)

Definition deliver (ev : Inbound) (w : World E) : World E :=
  match ev with
  | InReuseAccepted conn_id thread receipt =>
      match find_record conn_id (conn_records w) with
      | Some c => snd (receive_reuse_accepted_message thread receipt c w)
      | None => w
      end
  | InProblemReport conn_id thread receipt =>
      match find_record conn_id (conn_records w) with
      | Some c => snd (receive_problem_report thread receipt c w)
      | None => w
      end
  | InHandshakeProgress conn_id st =>
      match find_record conn_id (conn_records w) with
      | Some c => with_conn_records (put_record (set_state c st)) w
      | None => w
      end
  | InNothing => w
  end.

Definition tick (w : World E) : World E :=
  match inbound w with
  | [] => w
  | ev :: rest => deliver ev (with_inbound (fun _ => rest) w)
  end.

(** *** check_reuse_msg_state, under [asyncio.wait_for(..., timeout)] *)

Fixpoint check_reuse_msg_state (timeout : nat) (conn_rec : ConnRecord) : M E unit :=
  fun w =>
    match metadata_get conn_rec "reuse_msg_state" w with
    | (Ok msg_state, w) =>
        if bool_decide (msg_state <> Some "initial") then (Ok tt, w)
        else
          match timeout with
          | 0 => (Raise TimeoutError, w)
          | S timeout => check_reuse_msg_state timeout conn_rec (tick w)
          end
    | (Raise e, w) => (Raise e, w)
    end.

(** *** conn_rec_is_active, under [asyncio.wait_for(..., timeout)] *)

Fixpoint conn_rec_is_active (timeout : nat) (conn_rec_id : string) : M E ConnRecord :=
  fun w =>
    match retrieve_by_id conn_rec_id w with
    | (Ok conn_rec, w) =>
        if is_ready conn_rec then (Ok conn_rec, w)
        else
          match timeout with
          | 0 => (Raise TimeoutError, w)
          | S timeout => conn_rec_is_active timeout conn_rec_id (tick w)
          end
    | (Raise e, w) => (Raise e, w)
    end.

(** *** create_handshake_reuse_message *)

Definition create_handshake_reuse_message
    (invi_msg : InvitationMessage) (conn_record : ConnRecord) : M E unit :=
  try_except
    (let pthid := invitation_msg_id conn_record in
     reuse_msg_id <- new_id ;;
     let thid := reuse_msg_id in
     let reuse_msg := HandshakeReuse reuse_msg_id {| thid := Some thid; pthid := pthid |} in
     connection_targets <- ask (fetch_connection_targets conn_record) ;;
     if responder profile then
       _ <- send reuse_msg connection_targets ;;
       _ <- metadata_set conn_record "reuse_msg_id" reuse_msg_id ;;
       metadata_set conn_record "reuse_msg_state" "initial"
     else ret tt)
    (fun err => raise (OutOfBandManagerError (HandshakeReuseFailed err))).

(** *** receive_reuse_message *)

Definition receive_reuse_message (reuse_msg : Thread) (receipt : MessageReceipt) : M E unit :=
  try_except
    (let invi_msg_id := pthid reuse_msg in
     let reuse_msg_id := thid reuse_msg in
     conn_record <- find_existing_connection [] [(InvitationMsgId, invi_msg_id)] ;;
     match conn_record with
     | Some conn_record =>
         reuse_accept_id <- new_id ;;
         let reuse_accept_msg :=
           HandshakeReuseAccept reuse_accept_id {| thid := reuse_msg_id; pthid := invi_msg_id |} in
         connection_targets <- ask (fetch_connection_targets conn_record) ;;
         if responder profile then send reuse_accept_msg connection_targets else ret tt
     | None =>
         conn_record <- find_existing_connection [(TheirDid, Some (sender_did receipt))] [] ;;
         match conn_record with
         | Some conn_record =>
             reuse_accept_id <- new_id ;;
             let reuse_accept_msg :=
               HandshakeReuseAccept reuse_accept_id
                 {| thid := reuse_msg_id; pthid := invi_msg_id |} in
             connection_targets <- ask (fetch_connection_targets conn_record) ;;
             if responder profile then send reuse_accept_msg connection_targets else ret tt
         | None => ret tt
         end
     end)
    (fun e =>
       match e with
       | StorageNotFoundError =>
           raise (OutOfBandManagerError (NoConnRecordForInvitee (sender_did receipt)))
       | _ => raise e
       end).

(** *** _process_pres_request_v1, _process_pres_request_v2 *)

Definition _process_pres_request_v1
    (req_attach : AttachContent) (service : ServiceMessage) (conn_rec : ConnRecord)
    (trace : bool) : M E unit :=
  let pres_request_msg := req_attach in
  indy_proof_request <- ask (fun _ => indy_proof_request_of pres_request_msg) ;;
  let pres_ex_record :=
    {| pres_connection_id := connection_id conn_rec;
       pres_thread_id := content_id pres_request_msg;
       pres_request := pres_request_msg;
       pres_service := service;
       auto_present := debug_auto_respond_presentation_request (settings profile);
       pres_trace := trace |} in
  pres_ex_record <- call (v10_receive_request pres_ex_record) ;;
  if auto_present pres_ex_record then
    req_creds <-
      try_except
        (ask (fun w => indy_proof_req_preview2indy_requested_creds indy_proof_request (ext w)))
        (fun err =>
           match err with
           | ValueError => raise (OutOfBandManagerError CannotAutoRespondPresentation)
           | _ => raise err
           end) ;;
    ' (pres_ex_record, presentation_message) <-
      call (v10_create_presentation pres_ex_record req_creds) ;;
    if responder profile then
      target_list <- ask (fetch_connection_targets conn_rec) ;;
      send (Presentation presentation_message) target_list
    else ret tt
  else raise (OutOfBandManagerError AutoPresentFalse).

Definition _process_pres_request_v2
    (req_attach : AttachContent) (service : ServiceMessage) (conn_rec : ConnRecord)
    (trace : bool) : M E unit :=
  let pres_request_msg := req_attach in
  let pres_ex_record :=
    {| pres_connection_id := connection_id conn_rec;
       pres_thread_id := content_id pres_request_msg;
       pres_request := pres_request_msg;
       pres_service := service;
       auto_present := debug_auto_respond_presentation_request (settings profile);
       pres_trace := trace |} in
  pres_ex_record <- call (v20_receive_pres_request pres_ex_record) ;;
  if auto_present pres_ex_record then
    ' (pres_ex_record, pres_msg) <- call (v20_create_pres pres_ex_record) ;;
    if responder profile then
      target_list <- ask (fetch_connection_targets conn_rec) ;;
      send (Presentation pres_msg) target_list
    else ret tt
  else raise (OutOfBandManagerError AutoPresentFalse20).

(** *** _process_cred_offer_v1, _process_cred_offer_v2 *)

Definition _process_cred_offer_v1
    (req_attach : AttachContent) (conn_rec : ConnRecord) (trace : bool) : M E unit :=
  let cred_offer_msg := req_attach in
  (* receive credential offer *)
  cred_ex_record <- call (v10_receive_offer cred_offer_msg trace (connection_id conn_rec)) ;;
  if debug_auto_respond_credential_offer (settings profile) then
    if is_ready conn_rec then
      ' (_, cred_request_message) <-
        call (v10_create_request cred_ex_record (my_did conn_rec)) ;;
      if responder profile then
        target_list <- ask (fetch_connection_targets conn_rec) ;;
        send (CredentialRequest cred_request_message) target_list
      else ret tt
    else ret tt
  else raise (OutOfBandManagerError AutoOfferFalse).

Definition _process_cred_offer_v2
    (req_attach : AttachContent) (conn_rec : ConnRecord) (trace : bool) : M E unit :=
  let cred_offer_msg := req_attach in
  cred_ex_record <- call (v20_receive_offer cred_offer_msg trace (connection_id conn_rec)) ;;
  if debug_auto_respond_credential_offer (settings profile) then
    if is_ready conn_rec then
      ' (_, cred_request_message) <-
        call (v20_create_request cred_ex_record (my_did conn_rec)) ;;
      if responder profile then
        target_list <- ask (fetch_connection_targets conn_rec) ;;
        send (CredentialRequest cred_request_message) target_list
      else ret tt
    else ret tt
  else raise (OutOfBandManagerError AutoOfferFalse).

(** *** receive_invitation

    The body of [receive_invitation] is cut at its comments into the
    blocks below; [receive_invitation] itself chains them. *)

(** Python truthiness of an optional string and of an optional flag. *)
Definition truthy (s : option string) : bool :=
  match s with
  | Some s => negb (String.eqb s "")
  | None => false
  end.

Definition is_true (b : option bool) : bool :=
  match b with
  | Some b => b
  | None => false
  end.

(** [service_did.split(":")[-1]]. *)
Fixpoint last_segment_from (acc s : string) : string :=
  match s with
  | EmptyString => acc
  | String c s' =>
      if Ascii.eqb c ":"%char then last_segment_from "" s'
      else last_segment_from (acc ++ String c "") s'
  end.

Definition last_segment (s : string) : string := last_segment_from "" s.

(** [dict.fromkeys(l)]: the elements of [l] in order of first occurrence. *)
Fixpoint fromkeys_from (seen l : list string) : list string :=
  match l with
  | [] => []
  | x :: l' =>
      if bool_decide (x ∈ seen) then fromkeys_from seen l'
      else x :: fromkeys_from (x :: seen) l'
  end.

Definition fromkeys (l : list string) : list string := fromkeys_from [] l.

Definition unq_handshake_protos (invitation : InvitationMessage) : list (option HSProto) :=
  map HSProto_get (fromkeys (map unqualify (handshake_protocols invitation))).

(** Lines 415-448: the single service item, as an inline block, and the
    public DID if the item was one. *)
Definition get_service (invitation : InvitationMessage)
    : M E (ServiceMessage * option string) :=
  match services invitation with
  | InlineService oob_service_item :: _ => ret (oob_service_item, None)
  | ServiceDid service_did :: _ =>
      ' (endpoint, recipient_keys, routing_keys) <- ask (resolve_invitation service_did) ;;
      let public_did := last_segment service_did in
      ret ({| recipient_keys := map from_public_key_b58 recipient_keys;
              routing_keys := map from_public_key_b58 routing_keys;
              service_endpoint := endpoint |},
           Some public_did)
  | [] => raise (OutOfBandManagerError ServiceArrayNotSingleton)
  end.

(** Lines 479-518: the reuse negotiation with the candidate. *)
Definition negotiate_reuse (invitation : InvitationMessage) (conn_rec : ConnRecord)
    : M E (option ConnRecord) :=
  _ <- create_handshake_reuse_message invitation conn_rec ;;
  try_except
    (_ <- check_reuse_msg_state 15 conn_rec ;;
     _ <- metadata_delete conn_rec "reuse_msg_id" ;;
     msg_state <- metadata_get conn_rec "reuse_msg_state" ;;
     if bool_decide (msg_state = Some "not_accepted") then ret None
     else
       _ <- metadata_delete conn_rec "reuse_msg_state" ;;
       ret (Some conn_rec))
    (fun e =>
       match e with
       | TimeoutError =>
           _ <- metadata_delete conn_rec "reuse_msg_id" ;;
           _ <- metadata_delete conn_rec "reuse_msg_state" ;;
           let conn_rec := set_state conn_rec ABANDONED in
           _ <- save conn_rec ;;
           ret None
       | _ => raise e
       end).

(** Lines 470-538: what becomes of the candidate [conn_rec]. *)
Definition reuse_connection
    (invitation : InvitationMessage) (use_existing_connection : bool)
    (conn_rec : ConnRecord) : M E (option ConnRecord) :=
  let num_included_protocols := length (unq_handshake_protos invitation) in
  let num_included_req_attachments := length (requests_attach invitation) in
  if (1 <=? num_included_protocols)%nat
     && (num_included_req_attachments =? 0)%nat
     && use_existing_connection
  then negotiate_reuse invitation conn_rec
  else if negb
            (((num_included_protocols =? 0)%nat
              && (1 <=? num_included_req_attachments)%nat
              && use_existing_connection)
             || ((1 <=? num_included_protocols)%nat
                 && (1 <=? num_included_req_attachments)%nat
                 && use_existing_connection))
  then ret None
  else ret (Some conn_rec).

(** Lines 545-583: the loop over the handshake protocols.  The RFC 160
    branch rewrites the keys of [service] in place, so the service is
    threaded through. *)
Fixpoint create_connection
    (invitation : InvitationMessage) (public_did : option string)
    (auto_accept : option bool) (alias mediation_id : option string)
    (protos : list (option HSProto)) (service : ServiceMessage)
    : M E (option ConnRecord * ServiceMessage) :=
  match protos with
  | [] => ret (None, service)
  | proto :: protos =>
      ' (conn_rec, service) <-
        match proto with
        | Some RFC23 =>
            conn_rec <-
              didx_receive_invitation invitation public_did auto_accept alias mediation_id ;;
            ret (conn_rec, service)
        | Some RFC160 =>
            let service :=
              {| recipient_keys := map from_did (recipient_keys service);
                 routing_keys := map from_did (routing_keys service);
                 service_endpoint := service_endpoint service |} in
            let connection_invitation :=
              {| ci_id := _id invitation;
                 ci_type := qualify_current (HSProto_name RFC160);
                 ci_label := label invitation;
                 ci_recipient_keys := recipient_keys service;
                 ci_service_endpoint := service_endpoint service;
                 ci_routing_keys := routing_keys service |} in
            conn_rec <-
              conn_receive_invitation connection_invitation public_did auto_accept alias
                mediation_id ;;
            ret (conn_rec, service)
        | None => ret (None, service)
        end ;;
      match conn_rec with
      | Some _ => ret (conn_rec, service)
      | None =>
          create_connection invitation public_did auto_accept alias mediation_id protos service
      end
  end.

(** Lines 608-621 and 628-641: the best-effort wait for the connection. *)
Definition await_active (auto_accept : option bool) (conn_rec : ConnRecord) : M E ConnRecord :=
  if is_true auto_accept || debug_auto_accept_invites (settings profile) then
    try_except
      (conn_rec_is_active 7 (connection_id conn_rec))
      (fun e =>
         match e with
         | TimeoutError => ret conn_rec
         | _ => raise e
         end)
  else ret conn_rec.

(** Lines 585-659: the request attachment. *)
Definition request_attach
    (invitation : InvitationMessage) (auto_accept : option bool)
    (service : ServiceMessage) (conn_rec : option ConnRecord) : M E (option ConnRecord) :=
  match requests_attach invitation, conn_rec with
  | req_attach :: _, Some conn_rec =>
      match req_attach with
      | AttachDecorator (Some content) =>
          let unq_req_attach_type := unqualify (content_type content) in
          let trace := bool_decide (_trace invitation <> None) in
          if String.eqb unq_req_attach_type PRESENTATION_REQUEST then
            _ <- _process_pres_request_v1 content service conn_rec trace ;;
            ret (Some conn_rec)
          else if String.eqb unq_req_attach_type PRES_20_REQUEST then
            _ <- _process_pres_request_v2 content service conn_rec trace ;;
            ret (Some conn_rec)
          else if String.eqb unq_req_attach_type CREDENTIAL_OFFER then
            conn_rec <- await_active auto_accept conn_rec ;;
            _ <- _process_cred_offer_v1 content conn_rec trace ;;
            ret (Some conn_rec)
          else if String.eqb unq_req_attach_type CRED_20_OFFER then
            conn_rec <- await_active auto_accept conn_rec ;;
            _ <- _process_cred_offer_v2 content conn_rec trace ;;
            ret (Some conn_rec)
          else raise (OutOfBandManagerError (UnsupportedAttachType (content_type content)))
      | AttachDecorator None => ret (Some conn_rec)
      | NotAttachDecorator => raise (OutOfBandManagerError AttachNotProperlyFormatted)
      end
  | _, _ => ret conn_rec
  end.

(** Lines 401-405: a mediation id that is not on record is dropped. *)
Definition check_mediation (mediation_id : option string) : M E (option string) :=
  if truthy mediation_id then
    try_except
      (_ <- ask (mediation_record_if_id mediation_id false) ;; ret mediation_id)
      (fun e =>
         match e with
         | StorageNotFoundError => ret None
         | _ => raise e
         end)
  else ret mediation_id.

(** Lines 407-583: the connection to use, reused or new, and the service
    block as the handshake left it. *)
Definition seek_connection
    (invitation : InvitationMessage) (use_existing_connection : bool)
    (auto_accept : option bool) (alias mediation_id : option string)
    : M E (option ConnRecord * ServiceMessage) :=
  (* There must be exactly 1 service entry *)
  if negb (length (services invitation) =? 1)%nat then
    raise (OutOfBandManagerError ServiceArrayNotSingleton)
  else if negb ((0 <? length (requests_attach invitation))%nat
                || (0 <? length (handshake_protocols invitation))%nat) then
    raise (OutOfBandManagerError MustSpecifyProtocolsOrAttachments)
  else
    ' (service, public_did) <- get_service invitation ;;
    (* Reuse Connection - only if started by an invitation with Public DID *)
    conn_rec <-
      match public_did with
      | Some _ => find_existing_connection [] [(TheirPublicDid, public_did)]
      | None => ret None
      end ;;
    conn_rec <-
      match conn_rec with
      | Some conn_rec => reuse_connection invitation use_existing_connection conn_rec
      | None => ret None
      end ;;
    match conn_rec with
    | None =>
        if (length (unq_handshake_protos invitation) =? 0)%nat then
          raise (OutOfBandManagerError NoExistingConnectionNoHandshake)
        else
          (* Create a new connection *)
          create_connection invitation public_did auto_accept alias mediation_id
            (unq_handshake_protos invitation) service
    | Some _ => ret (conn_rec, service)
    end.

Definition receive_invitation
    (invitation : InvitationMessage) (use_existing_connection : bool)
    (auto_accept : option bool) (alias mediation_id : option string)
    : M E (option ConnRecord) :=
  mediation_id <- check_mediation mediation_id ;;
  ' (conn_rec, service) <-
    seek_connection invitation use_existing_connection auto_accept alias mediation_id ;;
  (* Request Attach *)
  request_attach invitation auto_accept service conn_rec.

(** *** create_invitation

    Lines 125-158 are embedded as written.  The rest of the function
    (lines 160-377: resolving the attachments, the public-DID path and the
    pairwise path) is [build_invitation]; it is reached only when no
    check above it raises. *)
Variable build_invitation :
  option string -> option string -> bool -> bool -> list HSProto -> bool ->
  option string -> list (string * string) -> list (string * string) ->
  option string -> M E InvitationRecord.

Definition create_invitation
    (my_label my_endpoint : option string) (auto_accept : option bool)
    (public : bool) (hs_protos : list HSProto) (multi_use : bool)
    (alias : option string) (attachments : list (string * string))
    (metadata : list (string * string)) (mediation_id : option string)
    : M E InvitationRecord :=
  mediation_record <- ask (mediation_record_if_id mediation_id true) ;;
  if negb ((0 <? length hs_protos)%nat || (0 <? length attachments)%nat) then
    raise (OutOfBandManagerError MustIncludeProtocolsOrAttachments)
  else
    let accept :=
      is_true auto_accept
      || (bool_decide (auto_accept = None)
          && debug_auto_accept_requests (settings profile)) in
    _ <-
      (if public then
         if multi_use then raise (OutOfBandManagerError PublicWithMultiUse)
         else if (0 <? length metadata)%nat then raise (OutOfBandManagerError PublicWithMetadata)
         else ret tt
       else ret tt) ;;
    build_invitation my_label my_endpoint accept public hs_protos multi_use alias
      attachments metadata mediation_record.

End OutOfBandManager.

Arguments create_invitation {E _} profile build_invitation.

(** ** Scenarios

    The situations the properties below speak of, in terms of the
    functions of the manager. *)

Section Scenarios.
Context {E : Type} `{Collaborators E}.
Variable profile : Profile.

(** The applicability rule in the words of the specification: reuse is
    attempted only when the caller permits it and the invitation has
    (protocols, no attachments), (no protocols, attachments) or
    (protocols, attachments). *)
Definition reuse_applicable (permitted protocols attachments : bool) : bool :=
  permitted
  && ((protocols && negb attachments)
      || (negb protocols && attachments)
      || (protocols && attachments)).

(** The invitation passes the checks on entry in world [w] and names the
    public DID [public_did] as its single service. *)
Definition arrives (invitation : InvitationMessage)
    (mediation_id mediation_id' : option string) (service : ServiceMessage)
    (public_did : string) (w : World E) : Prop :=
  fst (check_mediation mediation_id w) = Ok mediation_id'
  /\ length (services invitation) = 1
  /\ get_service invitation w = (Ok (service, Some public_did), w).

(** [conn_rec] is the candidate for reuse: the active connection the
    store returns first for the public DID. *)
Definition candidate_for (public_did : string) (conn_rec : ConnRecord) (w : World E) : Prop :=
  find_existing_connection [] [(TheirPublicDid, Some public_did)] w
  = (Ok (Some conn_rec), w).

(** The reuse message went out in world [w], and the bounded wait for
    the reply ended with [outcome] in world [w']. *)
Definition negotiation_ends (invitation : InvitationMessage) (conn_rec : ConnRecord)
    (w : World E) (outcome : Res unit) (w' : World E) : Prop :=
  exists w1,
    create_handshake_reuse_message profile invitation conn_rec w = (Ok tt, w1)
    /\ check_reuse_msg_state 15 conn_rec w1 = (outcome, w').

Definition reuse_msg_state (conn_rec : ConnRecord) (w : World E) : option string :=
  conn_metadata w !! (connection_id conn_rec, "reuse_msg_state").

Definition reuse_msg_id (conn_rec : ConnRecord) (w : World E) : option string :=
  conn_metadata w !! (connection_id conn_rec, "reuse_msg_id").

(** The world after both reuse keys of [conn_rec] are deleted. *)
Definition without_reuse_metadata (conn_rec : ConnRecord) (w : World E) : World E :=
  with_conn_metadata (delete (connection_id conn_rec, "reuse_msg_state"))
    (with_conn_metadata (delete (connection_id conn_rec, "reuse_msg_id")) w).

End Scenarios.

(** ** A concrete agent

    A small instance of the collaborators, on which the definitions above
    can be run: the credential managers keep the list of the exchange
    records they created, and both handshake strategies store a new
    record in state [REQUEST]. *)

Module Sample.

Definition strip_prefix (p s : string) : string :=
  if String.prefix p s then String.substring (String.length p) (String.length s - String.length p) s
  else s.

Fixpoint tally (n : nat) : string :=
  match n with
  | 0 => ""
  | S n => String "i" (tally n)
  end.

Definition new_conn_rec (w : World (list CredExRecord)) (public_did : option string)
    : ConnRecord :=
  {| connection_id := "conn-" ++ tally (length (conn_records w));
     state := REQUEST;
     their_public_did := public_did;
     their_did := None;
     my_did := Some "my-did";
     invitation_msg_id := None |}.

Definition strategy (public_did : option string) : M (list CredExRecord) (option ConnRecord) :=
  fun w =>
    let c := new_conn_rec w public_did in
    (Ok (Some c), with_conn_records (fun l => (l ++ [c])%list) w).

Definition receive_offer (offer : AttachContent) (trace : bool) (conn_id : string)
    (e : list CredExRecord) : Res CredExRecord * list CredExRecord :=
  let r := {| cred_connection_id := conn_id; cred_offer := offer; cred_trace := trace |} in
  (Ok r, (e ++ [r])%list).

Definition agent : Collaborators (list CredExRecord) := {|
  PRESENTATION_REQUEST := "present-proof/1.0/request-presentation";
  PRES_20_REQUEST := "present-proof/2.0/request-presentation";
  CREDENTIAL_OFFER := "issue-credential/1.0/offer-credential";
  CRED_20_OFFER := "issue-credential/2.0/offer-credential";
  unqualify := strip_prefix "https://didcomm.org/";
  qualify_current := fun s => "https://didcomm.org/" ++ s;
  HSProto_get := fun s =>
    if String.eqb s "didexchange/1.0" then Some RFC23
    else if String.eqb s "connections/1.0" then Some RFC160
    else None;
  HSProto_name := fun p =>
    match p with
    | RFC160 => "connections/1.0"
    | RFC23 => "didexchange/1.0"
    end;
  from_public_key_b58 := fun k => "did:key:" ++ k;
  from_did := strip_prefix "did:key:";
  uuid4 := fun n => "msg-" ++ tally n;
  is_ready := fun c => bool_decide (state c = COMPLETED) || bool_decide (state c = RESPONSE);
  mediation_record_if_id := fun id _ _ =>
    match id with
    | Some _ => Raise StorageNotFoundError
    | None => Ok None
    end;
  resolve_invitation := fun _ _ => Ok ("http://inviter", ["verkey"], []);
  fetch_connection_targets := fun c _ => Ok [connection_id c];
  didx_receive_invitation := fun _ public_did _ _ _ => strategy public_did;
  conn_receive_invitation := fun _ public_did _ _ _ => strategy public_did;
  v10_receive_offer := receive_offer;
  v10_create_request := fun r _ e => (Ok (r, "credential-request"), e);
  v20_receive_offer := receive_offer;
  v20_create_request := fun r _ e => (Ok (r, "credential-request"), e);
  indy_proof_request_of := fun c => Ok (content_body c);
  indy_proof_req_preview2indy_requested_creds := fun _ _ => Raise ValueError;
  v10_receive_request := fun r e => (Ok r, e);
  v10_create_presentation := fun r _ e => (Ok (r, "presentation"), e);
  v20_receive_pres_request := fun r e => (Ok r, e);
  v20_create_pres := fun r e => (Ok (r, "presentation"), e);
|}.

Definition profile : Profile :=
  {| settings :=
       {| debug_auto_accept_requests := false;
          debug_auto_accept_invites := false;
          debug_auto_respond_credential_offer := false;
          debug_auto_respond_presentation_request := false |};
     responder := true |}.

(** An active connection bound to the public DID [WgWxqztrNooG92RXvxSTWv]. *)
Definition candidate : ConnRecord :=
  {| connection_id := "conn-existing";
     state := COMPLETED;
     their_public_did := Some "WgWxqztrNooG92RXvxSTWv";
     their_did := Some "their-did";
     my_did := Some "my-did";
     invitation_msg_id := Some "invi-0" |}.

Definition world (schedule : list Inbound) : World (list CredExRecord) :=
  {| conn_records := [candidate];
     conn_metadata := ∅;
     outbox := [];
     inbound := schedule;
     uuids := 0;
     ext := [] |}.

Definition empty_world : World (list CredExRecord) :=
  {| conn_records := [];
     conn_metadata := ∅;
     outbox := [];
     inbound := [];
     uuids := 0;
     ext := [] |}.

Definition public_invitation (id : string) (attachments : list ReqAttach) : InvitationMessage :=
  {| _id := id;
     label := "inviter";
     handshake_protocols := ["https://didcomm.org/didexchange/1.0"];
     requests_attach := attachments;
     services := [ServiceDid "did:sov:WgWxqztrNooG92RXvxSTWv"];
     _trace := None |}.

Definition accept (n : nat) : Inbound :=
  InReuseAccepted "conn-existing"
    {| thid := Some ("msg-" ++ tally n); pthid := Some "invi-0" |}
    {| sender_did := "their-did" |}.

Definition refuse (n : nat) : Inbound :=
  InProblemReport "conn-existing"
    {| thid := Some ("msg-" ++ tally n); pthid := Some "invi-0" |}
    {| sender_did := "their-did" |}.

Definition credential_offer : ReqAttach :=
  AttachDecorator
    (Some {| content_type := "https://didcomm.org/issue-credential/1.0/offer-credential";
             content_id := "offer-1";
             content_body := "offer" |}).

(** The part of [create_invitation] past its checks. *)
Definition build_invitation
    (my_label my_endpoint : option string) (accept public : bool)
    (hs_protos : list HSProto) (multi_use : bool) (alias : option string)
    (attachments metadata : list (string * string)) (mediation_record : option string)
    : M (list CredExRecord) InvitationRecord :=
  ret {| invi_state := "initial";
         invi_msg_id := "invi-new";
         invitation := public_invitation "invi-new" [];
         invitation_url := "http://inviter?oob=invi-new" |}.

Definition public_did : string := "WgWxqztrNooG92RXvxSTWv".

(** The service block the public DID of the sample invitations resolves to. *)
Definition service : ServiceMessage :=
  {| recipient_keys := ["did:key:verkey"];
     routing_keys := [];
     service_endpoint := "http://inviter" |}.

(** The world in which the wait for the reply to the reuse message for
    [invitation], sent from [w], ends. *)
Definition waited (invitation : InvitationMessage) (w : World (list CredExRecord))
    : World (list CredExRecord) :=
  snd (check_reuse_msg_state 15 candidate
         (snd (create_handshake_reuse_message (H := agent) profile invitation candidate w))).

(** Receiving an invitation with the defaults of the optional arguments. *)
Definition receive (invitation : InvitationMessage) (use_existing_connection : bool)
    : M (list CredExRecord) (option ConnRecord) :=
  receive_invitation (H := agent) profile invitation use_existing_connection None None None.

End Sample.


(** ** Further scenarios *)

(** A reply that cannot belong to the reuse message [id] sent on
    [conn_rec]: it is addressed to another connection, or it is threaded
    to another message. *)
Definition off_thread (conn_rec : ConnRecord) (id : string) (ev : Inbound) : Prop :=
  match ev with
  | InReuseAccepted conn_id thread _ | InProblemReport conn_id thread _ =>
      conn_id = connection_id conn_rec -> thid thread <> Some id
  | InHandshakeProgress _ _ | InNothing => True
  end.

(** Whether a string has a colon in it. *)
Fixpoint has_colon (s : string) : bool :=
  match s with
  | EmptyString => false
  | String c s' => Ascii.eqb c ":"%char || has_colon s'
  end.

(** A record is an active match of the two filters of a lookup. *)
Definition active_match (tag_filter post_filter : list (Tag * option string))
    (c : ConnRecord) : Prop :=
  matches tag_filter c = true /\ matches post_filter c = true /\ state c = COMPLETED.

(** More sample data: an agent whose connection targets cannot be
    fetched, profiles with other settings, and other invitations. *)
Module Cases.

Definition unreachable : Collaborators (list CredExRecord) := {|
  PRESENTATION_REQUEST := PRESENTATION_REQUEST (Collaborators := Sample.agent);
  PRES_20_REQUEST := PRES_20_REQUEST (Collaborators := Sample.agent);
  CREDENTIAL_OFFER := CREDENTIAL_OFFER (Collaborators := Sample.agent);
  CRED_20_OFFER := CRED_20_OFFER (Collaborators := Sample.agent);
  unqualify := unqualify (Collaborators := Sample.agent);
  qualify_current := qualify_current (Collaborators := Sample.agent);
  HSProto_get := HSProto_get (Collaborators := Sample.agent);
  HSProto_name := HSProto_name (Collaborators := Sample.agent);
  from_public_key_b58 := from_public_key_b58 (Collaborators := Sample.agent);
  from_did := from_did (Collaborators := Sample.agent);
  uuid4 := uuid4 (Collaborators := Sample.agent);
  is_ready := is_ready (Collaborators := Sample.agent);
  mediation_record_if_id := mediation_record_if_id (Collaborators := Sample.agent);
  resolve_invitation := resolve_invitation (Collaborators := Sample.agent);
  fetch_connection_targets := fun _ _ => Raise (OtherError "no route to the connection");
  didx_receive_invitation := didx_receive_invitation (Collaborators := Sample.agent);
  conn_receive_invitation := conn_receive_invitation (Collaborators := Sample.agent);
  v10_receive_offer := v10_receive_offer (Collaborators := Sample.agent);
  v10_create_request := v10_create_request (Collaborators := Sample.agent);
  v20_receive_offer := v20_receive_offer (Collaborators := Sample.agent);
  v20_create_request := v20_create_request (Collaborators := Sample.agent);
  indy_proof_request_of := indy_proof_request_of (Collaborators := Sample.agent);
  indy_proof_req_preview2indy_requested_creds :=
    indy_proof_req_preview2indy_requested_creds (Collaborators := Sample.agent);
  v10_receive_request := v10_receive_request (Collaborators := Sample.agent);
  v10_create_presentation := v10_create_presentation (Collaborators := Sample.agent);
  v20_receive_pres_request := v20_receive_pres_request (Collaborators := Sample.agent);
  v20_create_pres := v20_create_pres (Collaborators := Sample.agent);
|}.

(** Every automatic answer switched on. *)
Definition eager : Profile :=
  {| settings :=
       {| debug_auto_accept_requests := true;
          debug_auto_accept_invites := true;
          debug_auto_respond_credential_offer := true;
          debug_auto_respond_presentation_request := true |};
     responder := true |}.

(** The sample profile without a responder. *)
Definition mute : Profile :=
  {| settings := settings Sample.profile; responder := false |}.

(** A connection whose handshake is not finished. *)
Definition pending : ConnRecord :=
  {| connection_id := "conn-pending";
     state := REQUEST;
     their_public_did := None;
     their_did := Some "their-did";
     my_did := Some "my-did";
     invitation_msg_id := Some "invi-9" |}.

Definition offer : AttachContent :=
  {| content_type := "https://didcomm.org/issue-credential/1.0/offer-credential";
     content_id := "offer-1";
     content_body := "offer" |}.

Definition proof_request : AttachContent :=
  {| content_type := "https://didcomm.org/present-proof/1.0/request-presentation";
     content_id := "request-1";
     content_body := "proof request" |}.

Definition inline_service : ServiceMessage :=
  {| recipient_keys := ["did:key:verkey"];
     routing_keys := ["did:key:routekey"];
     service_endpoint := "http://inviter" |}.

(** An invitation with an inline service block. *)
Definition inline_invitation (protocols : list string) (attachments : list ReqAttach)
    : InvitationMessage :=
  {| _id := "invi-inline";
     label := "inviter";
     handshake_protocols := protocols;
     requests_attach := attachments;
     services := [InlineService inline_service];
     _trace := None |}.

End Cases.

Section ReceiptScenarios.
Context {E : Type} `{Collaborators E}.
Variable profile : Profile.


(** [type] is the unqualified type of a credential offer, of version 1 or
    of version 2, told apart from the types the attachment step tests
    before it, and [receive_offer] is the call of the credential manager
    of that version. *)
Definition credential_offer_type (type : string)
    (receive_offer : AttachContent -> bool -> string -> E -> Res CredExRecord * E) : Prop :=
  (type = CREDENTIAL_OFFER
   /\ CREDENTIAL_OFFER <> PRESENTATION_REQUEST
   /\ CREDENTIAL_OFFER <> PRES_20_REQUEST
   /\ receive_offer = v10_receive_offer)
  \/ (type = CRED_20_OFFER
      /\ CRED_20_OFFER <> PRESENTATION_REQUEST
      /\ CRED_20_OFFER <> PRES_20_REQUEST
      /\ CRED_20_OFFER <> CREDENTIAL_OFFER
      /\ receive_offer = v20_receive_offer).

End ReceiptScenarios.

(** More sample data: an agent whose DID-exchange strategy declines every
    invitation, an invitation that names that protocol first and more
    than once, and a world with a reuse negotiation under way. *)
Module Fixtures.




(** A world in which the reuse message for the sample candidate is out
    and not answered yet. *)
Definition negotiating : World (list CredExRecord) :=
  with_conn_metadata (insert ("conn-existing", "reuse_msg_state") "initial")
    (with_conn_metadata (insert ("conn-existing", "reuse_msg_id") "msg-1")
       (Sample.world [])).

End Fixtures.

(** * Properties *)

(** ** [dict.fromkeys] *)

Lemma fromkeys_from_elem seen l x :
  x ∈ fromkeys_from seen l <-> x ∈ l /\ x ∉ seen.
Proof.
  revert seen. induction l as [|y l IH]; intros seen; simpl.
  - rewrite elem_of_nil. tauto.
  - case_bool_decide as Hy.
    + rewrite IH, elem_of_cons. naive_solver.
    + rewrite !elem_of_cons, IH, elem_of_cons.
      destruct (decide (x = y)) as [->|]; naive_solver.
Qed.

Lemma fromkeys_elem l x : x ∈ fromkeys l <-> x ∈ l.
Proof.
  unfold fromkeys. rewrite fromkeys_from_elem, elem_of_nil. tauto.
Qed.

Lemma fromkeys_from_NoDup seen l : NoDup (fromkeys_from seen l).
Proof.
  revert seen. induction l as [|y l IH]; intros seen; simpl.
  - constructor.
  - case_bool_decide; [done|].
    constructor; [|done]. rewrite fromkeys_from_elem, elem_of_cons. naive_solver.
Qed.

Lemma fromkeys_from_sublist seen l : fromkeys_from seen l `sublist_of` l.
Proof.
  revert seen. induction l as [|y l IH]; intros seen; simpl.
  - constructor.
  - case_bool_decide.
    + by apply sublist_cons.
    + by apply sublist_skip.
Qed.

Lemma fromkeys_nil l : fromkeys l = [] <-> l = [].
Proof.
  split; [|by intros ->].
  destruct l as [|x l]; [done|]. unfold fromkeys; simpl. done.
Qed.

(** ** The store and the suspension points *)

Section StoreFacts.
Context {E : Type} `{Collaborators E}.


Lemma find_record_id (id : string) (l : list ConnRecord) (c : ConnRecord) :
  find_record id l = Some c -> connection_id c = id.
Proof.
  unfold find_record. intros Hfind.
  apply find_some in Hfind as [_ Heq].
  by apply String.eqb_eq.
Qed.

(** A lookup of a candidate reads the store and leaves the world alone. *)
Lemma find_existing_connection_eq tag_filter post_filter (w : World E) :
  find_existing_connection tag_filter post_filter w =
    (Ok (List.find (fun c => bool_decide (state c = COMPLETED))
           (List.filter (fun c => matches tag_filter c && matches post_filter c)
              (conn_records w))), w).
Proof. reflexivity. Qed.

Lemma find_existing_connection_none tag_filter post_filter (w : World E) :
  Forall (fun c => state c <> COMPLETED) (conn_records w) ->
  find_existing_connection tag_filter post_filter w = (Ok None, w).
Proof.
  intros Hall. rewrite find_existing_connection_eq. do 2 f_equal.
  induction Hall as [|c l Hc _ IH]; simpl; [done|].
  destruct (matches tag_filter c && matches post_filter c); simpl; [|done].
  by rewrite bool_decide_eq_false_2.
Qed.

(** The handlers of the reuse replies touch the metadata only. *)
Lemma receive_reuse_accepted_message_frame msg receipt c (w : World E) :
  let w' := snd (receive_reuse_accepted_message msg receipt c w) in
  conn_records w' = conn_records w /\ outbox w' = outbox w /\ ext w' = ext w
  /\ uuids w' = uuids w.
Proof.
  unfold receive_reuse_accepted_message, try_except, bind, metadata_get, assert; simpl.
  by destruct (bool_decide _).
Qed.

Lemma receive_problem_report_frame msg receipt c (w : World E) :
  let w' := snd (receive_problem_report msg receipt c w) in
  conn_records w' = conn_records w /\ outbox w' = outbox w /\ ext w' = ext w
  /\ uuids w' = uuids w.
Proof.
  unfold receive_problem_report, try_except, bind, metadata_get, assert; simpl.
  by destruct (bool_decide _).
Qed.

(** No inbound handler sends anything or calls a credential manager. *)
Lemma tick_frame (w : World E) :
  outbox (tick w) = outbox w /\ ext (tick w) = ext w /\ uuids (tick w) = uuids w.
Proof.
  unfold tick. destruct (inbound w) as [|ev rest]; [done|].
  destruct ev as [id th r|id th r|id st|]; simpl; try done.
  - destruct (find_record id _); [|done].
    pose proof (receive_reuse_accepted_message_frame th r c
                  (with_inbound (fun _ => rest) w)) as (_ & ? & ? & ?).
    done.
  - destruct (find_record id _); [|done].
    pose proof (receive_problem_report_frame th r c
                  (with_inbound (fun _ => rest) w)) as (_ & ? & ? & ?).
    done.
  - by destruct (find_record id _).
Qed.

Lemma conn_rec_is_active_frame timeout id (w : World E) :
  let w' := snd (conn_rec_is_active timeout id w) in
  outbox w' = outbox w /\ ext w' = ext w.
Proof.
  revert w. induction timeout as [|n IH]; intros w; simpl.
  - unfold retrieve_by_id. destruct (find_record id _); [|done].
    by destruct (is_ready c).
  - unfold retrieve_by_id. destruct (find_record id _); [|done].
    destruct (is_ready c); [done|].
    destruct (IH (tick w)) as [-> ->]. by destruct (tick_frame w) as (? & ? & _).
Qed.

Lemma unq_handshake_protos_length invitation :
  (1 <=? length (unq_handshake_protos invitation))%nat
  = (0 <? length (handshake_protocols invitation))%nat.
Proof.
  unfold unq_handshake_protos. rewrite length_map.
  destruct (handshake_protocols invitation) as [|x l]; [done|].
  unfold fromkeys; simpl. done.
Qed.

End StoreFacts.

(** ** The reuse replies *)

Section ReuseReplies.
Context {E : Type} `{Collaborators E}.

(** C4.  A [HandshakeReuseAccept] or a problem report whose thread id
    differs from the [reuse_msg_id] stored in the metadata of the
    connection fails with an [OutOfBandManagerError] (wrapping the failed
    assertion) and leaves the world, hence [reuse_msg_state], as it was. *)
Theorem thread_guard (msg : Thread) (receipt : MessageReceipt)
    (conn_record : ConnRecord) (w : World E) :
  thid msg <> conn_metadata w !! (connection_id conn_record, "reuse_msg_id") ->
  receive_reuse_accepted_message msg receipt conn_record w
    = (Raise (OutOfBandManagerError (ReuseAcceptedFailed (pthid msg) AssertionError)), w)
  /\ receive_problem_report msg receipt conn_record w
    = (Raise (OutOfBandManagerError (ProblemReportFailed (pthid msg) AssertionError)), w).
Proof.
  intros Hne.
  unfold receive_reuse_accepted_message, receive_problem_report.
  unfold try_except, bind, metadata_get, assert; simpl.
  by rewrite bool_decide_eq_false_2.
Qed.

(** The guard is the only obstacle: with the stored id, the state is set. *)
Lemma thread_guard_passes (msg : Thread) (receipt : MessageReceipt)
    (conn_record : ConnRecord) (w : World E) :
  thid msg = conn_metadata w !! (connection_id conn_record, "reuse_msg_id") ->
  receive_reuse_accepted_message msg receipt conn_record w
    = (Ok tt,
       with_conn_metadata
         (insert (connection_id conn_record, "reuse_msg_state") "accepted") w).
Proof.
  intros Heq.
  unfold receive_reuse_accepted_message, try_except, bind, metadata_get, assert; simpl.
  by rewrite bool_decide_eq_true_2.
Qed.

End ReuseReplies.

Lemma thread_guard_witness :
  let msg := {| thid := Some "msg-other"; pthid := Some "invi-0" |} in
  let receipt := {| sender_did := "their-did" |} in
  receive_reuse_accepted_message msg receipt Sample.candidate (Sample.world [])
    = (Raise (OutOfBandManagerError (ReuseAcceptedFailed (pthid msg) AssertionError)),
       Sample.world [])
  /\ receive_problem_report msg receipt Sample.candidate (Sample.world [])
    = (Raise (OutOfBandManagerError (ProblemReportFailed (pthid msg) AssertionError)),
       Sample.world []).
Proof.
  apply thread_guard. vm_compute. discriminate.
Defined.

(** ** Whether the candidate is used *)

Section Applicability.
Context {E : Type} `{Collaborators E}.
Variable profile : Profile.

Lemma reuse_connection_cases (invitation : InvitationMessage)
    (use_existing_connection : bool) (conn_rec : ConnRecord) (w : World E) :
  let protocols := (0 <? length (handshake_protocols invitation))%nat in
  let attachments := (0 <? length (requests_attach invitation))%nat in
  reuse_connection profile invitation use_existing_connection conn_rec w =
    if reuse_applicable use_existing_connection protocols attachments
    then
      if attachments then (Ok (Some conn_rec), w)
      else negotiate_reuse profile invitation conn_rec w
    else (Ok None, w).
Proof.
  intros protocols attachments. unfold reuse_connection, reuse_applicable.
  assert (Hp0 : (length (unq_handshake_protos invitation) =? 0)%nat = negb protocols).
  { unfold protocols. rewrite <- unq_handshake_protos_length.
    by destruct (length (unq_handshake_protos invitation)). }
  rewrite Hp0, unq_handshake_protos_length. fold protocols.
  assert (Ha0 : (length (requests_attach invitation) =? 0)%nat = negb attachments).
  { unfold attachments. by destruct (length (requests_attach invitation)). }
  assert (Ha1 : (1 <=? length (requests_attach invitation))%nat = attachments).
  { unfold attachments. by destruct (length (requests_attach invitation)). }
  rewrite Ha0, Ha1.
  by destruct protocols, attachments, use_existing_connection.
Qed.

(** A candidate that is not applicable leaves the search for a connection
    where it is when the store has no candidate at all: at the handshake
    loop, or at the error for a missing handshake protocol. *)
Lemma seek_connection_without_reuse (invitation : InvitationMessage)
    (use_existing_connection : bool) (auto_accept : option bool)
    (alias mediation_id : option string) (service : ServiceMessage)
    (public_did : string) (found : option ConnRecord) (w : World E) :
  length (services invitation) = 1 ->
  (0 <? length (requests_attach invitation))%nat
  || (0 <? length (handshake_protocols invitation))%nat = true ->
  get_service invitation w = (Ok (service, Some public_did), w) ->
  find_existing_connection [] [(TheirPublicDid, Some public_did)] w = (Ok found, w) ->
  found = None
  \/ reuse_applicable use_existing_connection
       (0 <? length (handshake_protocols invitation))%nat
       (0 <? length (requests_attach invitation))%nat = false ->
  seek_connection profile invitation use_existing_connection auto_accept alias
    mediation_id w
  = if (length (unq_handshake_protos invitation) =? 0)%nat
    then (Raise (OutOfBandManagerError NoExistingConnectionNoHandshake), w)
    else create_connection invitation (Some public_did) auto_accept alias mediation_id
           (unq_handshake_protos invitation) service w.
Proof.
  intros Hlen Hshape Hservice Hfind Hnone.
  unfold seek_connection. rewrite Hlen, Hshape; simpl.
  unfold bind at 1. rewrite Hservice.
  unfold bind at 1. rewrite Hfind.
  unfold bind at 1.
  destruct found as [conn_rec|].
  - destruct Hnone as [[=]|Hrule].
    rewrite reuse_connection_cases, Hrule.
    by destruct (length (unq_handshake_protos invitation) =? 0)%nat.
  - unfold ret. by destruct (length (unq_handshake_protos invitation) =? 0)%nat.
Qed.

(** C1.  With a candidate at hand, reuse is attempted exactly when the
    rule of the specification applies: the caller permits it and the
    invitation has one of the three shapes (protocols, no attachments),
    (no protocols, attachments), (protocols, attachments).  With
    attachments the candidate is kept as it is, without attachments the
    reuse negotiation is run.  In every other case the candidate is
    dropped on the spot, in the unchanged world, and the receipt goes on
    as it does when the store has no candidate. *)
Theorem reuse_applicability (invitation : InvitationMessage)
    (use_existing_connection : bool) (conn_rec : ConnRecord) (w : World E) :
  let protocols := (0 <? length (handshake_protocols invitation))%nat in
  let attachments := (0 <? length (requests_attach invitation))%nat in
  reuse_connection profile invitation use_existing_connection conn_rec w
  = (if reuse_applicable use_existing_connection protocols attachments
     then
       if attachments then (Ok (Some conn_rec), w)
       else negotiate_reuse profile invitation conn_rec w
     else (Ok None, w))
  /\ forall auto_accept alias mediation_id service public_did,
       length (services invitation) = 1 ->
       attachments || protocols = true ->
       get_service invitation w = (Ok (service, Some public_did), w) ->
       candidate_for public_did conn_rec w ->
       reuse_applicable use_existing_connection protocols attachments = false ->
       seek_connection profile invitation use_existing_connection auto_accept alias
         mediation_id w
       = if (length (unq_handshake_protos invitation) =? 0)%nat
         then (Raise (OutOfBandManagerError NoExistingConnectionNoHandshake), w)
         else create_connection invitation (Some public_did) auto_accept alias
                mediation_id (unq_handshake_protos invitation) service w.
Proof.
  intros protocols attachments. split.
  - apply reuse_connection_cases.
  - intros auto_accept alias mediation_id service public_did Hlen Hshape Hservice
      Hcand Hrule.
    eapply seek_connection_without_reuse; try done. by right.
Qed.

End Applicability.

Lemma reuse_applicability_witness :
  let invitation := Sample.public_invitation "invi-1" [] in
  let w := Sample.world [] in
  seek_connection (H := Sample.agent) Sample.profile invitation false None None None w
  = create_connection (H := Sample.agent) invitation (Some Sample.public_did) None None
      None [Some RFC23] Sample.service w.
Proof.
  intros invitation w.
  apply (proj2 (reuse_applicability (H := Sample.agent) Sample.profile invitation false
                  Sample.candidate w)
           None None None Sample.service Sample.public_did);
    reflexivity.
Defined.

(** ** Creating an invitation *)

Section CreateInvitation.
Context {E : Type} `{Collaborators E}.
Variable profile : Profile.
Variable build_invitation :
  option string -> option string -> bool -> bool -> list HSProto -> bool ->
  option string -> list (string * string) -> list (string * string) ->
  option string -> M E InvitationRecord.

(** C7, as the code has it.  When the mediation lookup succeeds, a call
    with [public] and [multi_use] both set fails, whatever the label,
    endpoint, accept policy, alias and metadata: with
    [ConfigurationRejected] if a handshake protocol or an attachment is
    given, and with [InvalidInvitationShape] if neither is, because the
    shape of the invitation is checked first. *)
Theorem public_multi_use_fails
    (my_label my_endpoint : option string) (auto_accept : option bool)
    (hs_protos : list HSProto) (alias : option string)
    (attachments metadata : list (string * string))
    (mediation_id mediation_record : option string) (w : World E) :
  mediation_record_if_id mediation_id true w = Ok mediation_record ->
  create_invitation profile build_invitation my_label my_endpoint auto_accept true
    hs_protos true alias attachments metadata mediation_id w
  = (Raise (OutOfBandManagerError
              (if (0 <? length hs_protos)%nat || (0 <? length attachments)%nat
               then PublicWithMultiUse
               else MustIncludeProtocolsOrAttachments)), w)
  /\ kind PublicWithMultiUse = ConfigurationRejected
  /\ kind MustIncludeProtocolsOrAttachments = InvalidInvitationShape.
Proof.
  intros Hmed. split; [|done].
  unfold create_invitation, bind, ask. rewrite Hmed.
  by destruct ((0 <? length hs_protos)%nat || (0 <? length attachments)%nat).
Qed.

(** An error of the mediation lookup is the error of the call. *)
Lemma create_invitation_mediation_error
    (my_label my_endpoint : option string) (auto_accept : option bool)
    (public multi_use : bool) (hs_protos : list HSProto) (alias : option string)
    (attachments metadata : list (string * string))
    (mediation_id : option string) (e : Exc) (w : World E) :
  mediation_record_if_id mediation_id true w = Raise e ->
  create_invitation profile build_invitation my_label my_endpoint auto_accept public
    hs_protos multi_use alias attachments metadata mediation_id w
  = (Raise e, w).
Proof.
  intros Hmed. unfold create_invitation, bind, ask. by rewrite Hmed.
Qed.

End CreateInvitation.

(** C7 as stated fails: with no handshake protocol and no attachment, the
    public multi-use call is rejected for its shape, not its configuration. *)
Lemma public_multi_use_without_protocols :
  exists why,
    fst (create_invitation (H := Sample.agent) Sample.profile Sample.build_invitation
           (Some "label") None None true [] true None [] [] None Sample.empty_world)
    = Raise (OutOfBandManagerError why)
    /\ kind why = InvalidInvitationShape
    /\ kind why <> ConfigurationRejected.
Proof.
  exists MustIncludeProtocolsOrAttachments. by vm_compute.
Qed.

Lemma public_multi_use_fails_witness :
  create_invitation (H := Sample.agent) Sample.profile Sample.build_invitation
    (Some "label") None None true [RFC23] true None [] [] None Sample.empty_world
  = (Raise (OutOfBandManagerError PublicWithMultiUse), Sample.empty_world)
  /\ kind PublicWithMultiUse = ConfigurationRejected
  /\ kind MustIncludeProtocolsOrAttachments = InvalidInvitationShape.
Proof.
  apply (public_multi_use_fails (H := Sample.agent) Sample.profile Sample.build_invitation
           (Some "label") None None [RFC23] None [] [] None None Sample.empty_world).
  reflexivity.
Defined.

(** ** Credential offers *)

Section CredentialOffers.
Context {E : Type} `{Collaborators E}.
Variable profile : Profile.

Lemma with_ext_changes (e' : E) (w : World E) :
  e' <> ext w -> with_ext (fun _ => e') w <> w.
Proof. intros Hne Heq. apply Hne. by rewrite <- Heq. Qed.

Lemma _process_cred_offer_v1_disabled
    (req_attach : AttachContent) (conn_rec : ConnRecord) (trace : bool)
    (w : World E) (cred_ex_record : CredExRecord) (e' : E) :
  debug_auto_respond_credential_offer (settings profile) = false ->
  v10_receive_offer req_attach trace (connection_id conn_rec) (ext w)
    = (Ok cred_ex_record, e') ->
  _process_cred_offer_v1 profile req_attach conn_rec trace w
    = (Raise (OutOfBandManagerError AutoOfferFalse), with_ext (fun _ => e') w).
Proof.
  intros Hoff Hrecv. unfold _process_cred_offer_v1, bind, call.
  by rewrite Hrecv, Hoff.
Qed.

Lemma _process_cred_offer_v2_disabled
    (req_attach : AttachContent) (conn_rec : ConnRecord) (trace : bool)
    (w : World E) (cred_ex_record : CredExRecord) (e' : E) :
  debug_auto_respond_credential_offer (settings profile) = false ->
  v20_receive_offer req_attach trace (connection_id conn_rec) (ext w)
    = (Ok cred_ex_record, e') ->
  _process_cred_offer_v2 profile req_attach conn_rec trace w
    = (Raise (OutOfBandManagerError AutoOfferFalse), with_ext (fun _ => e') w).
Proof.
  intros Hoff Hrecv. unfold _process_cred_offer_v2, bind, call.
  by rewrite Hrecv, Hoff.
Qed.

(** C10.  Both credential-offer handlers hand the offer to the
    credential manager before they look at the auto-respond setting: when
    the setting is off and [receive_offer] returns a record, the handler
    raises the auto-offer error in the world [receive_offer] produced.
    The state of the credential manager after the error is the one that
    holds the received offer, and if [receive_offer] changed it the world
    after the error differs from the world before the call. *)
Theorem offer_received_before_refusal
    (req_attach : AttachContent) (conn_rec : ConnRecord) (trace : bool)
    (w : World E) (cred_ex_record : CredExRecord) (e' : E) :
  debug_auto_respond_credential_offer (settings profile) = false ->
  (v10_receive_offer req_attach trace (connection_id conn_rec) (ext w)
     = (Ok cred_ex_record, e') ->
   let r := _process_cred_offer_v1 profile req_attach conn_rec trace w in
   fst r = Raise (OutOfBandManagerError AutoOfferFalse)
   /\ ext (snd r) = e'
   /\ (e' <> ext w -> snd r <> w))
  /\ (v20_receive_offer req_attach trace (connection_id conn_rec) (ext w)
        = (Ok cred_ex_record, e') ->
      let r := _process_cred_offer_v2 profile req_attach conn_rec trace w in
      fst r = Raise (OutOfBandManagerError AutoOfferFalse)
      /\ ext (snd r) = e'
      /\ (e' <> ext w -> snd r <> w)).
Proof.
  intros Hoff. split; intros Hrecv r; subst r.
  - rewrite (_process_cred_offer_v1_disabled _ _ _ _ _ _ Hoff Hrecv); simpl.
    split; [done|]. split; [done|]. apply with_ext_changes.
  - rewrite (_process_cred_offer_v2_disabled _ _ _ _ _ _ Hoff Hrecv); simpl.
    split; [done|]. split; [done|]. apply with_ext_changes.
Qed.

End CredentialOffers.

Lemma offer_received_before_refusal_witness :
  let offer :=
    {| content_type := "https://didcomm.org/issue-credential/1.0/offer-credential";
       content_id := "offer-1";
       content_body := "offer" |} in
  let received :=
    {| cred_connection_id := "conn-existing"; cred_offer := offer; cred_trace := false |} in
  let r :=
    _process_cred_offer_v1 (H := Sample.agent) Sample.profile offer Sample.candidate false
      (Sample.world []) in
  fst r = Raise (OutOfBandManagerError AutoOfferFalse)
  /\ ext (snd r) = [received]
  /\ ([received] <> ext (Sample.world []) -> snd r <> Sample.world []).
Proof.
  intros offer received.
  apply (proj1 (offer_received_before_refusal (H := Sample.agent) Sample.profile
                  offer Sample.candidate false (Sample.world []) received [received]
                  eq_refl)).
  reflexivity.
Defined.

(** ** Receiving a reuse message *)

Section ReuseMessage.
Context {E : Type} `{Collaborators E}.
Variable profile : Profile.

(** With no active connection on record, neither lookup finds one, and
    the message is dropped without an error. *)
Lemma receive_reuse_message_nothing_found
    (reuse_msg : Thread) (receipt : MessageReceipt) (w : World E) :
  Forall (fun c => state c <> COMPLETED) (conn_records w) ->
  receive_reuse_message profile reuse_msg receipt w = (Ok tt, w).
Proof.
  intros Hall. unfold receive_reuse_message, try_except, bind.
  by rewrite !(find_existing_connection_none _ _ w Hall).
Qed.

(** A connection found by the invitation message id is answered with an
    acceptance threaded to the reuse message. *)
Lemma receive_reuse_message_accepts
    (reuse_msg : Thread) (receipt : MessageReceipt) (w : World E)
    (conn_record : ConnRecord) (targets : list string) :
  responder profile = true ->
  find_existing_connection [] [(InvitationMsgId, pthid reuse_msg)] w
    = (Ok (Some conn_record), w) ->
  fetch_connection_targets conn_record (with_uuids S w) = Ok targets ->
  receive_reuse_message profile reuse_msg receipt w
  = (Ok tt,
     with_outbox
       (fun o =>
          (o ++ [(HandshakeReuseAccept (uuid4 (uuids w))
                    {| thid := thid reuse_msg; pthid := pthid reuse_msg |},
                  targets)])%list)
       (with_uuids S w)).
Proof.
  intros Hresp Hfind Htargets. unfold receive_reuse_message, try_except, bind.
  rewrite Hfind. unfold new_id, ask. by rewrite Htargets, Hresp.
Qed.

End ReuseMessage.

(** C6.  A reuse message for an invitation nobody holds, from a sender
    nobody knows: both lookups come back empty, and the call returns
    normally instead of raising. *)
Theorem reuse_message_from_stranger_returns :
  receive_reuse_message (H := Sample.agent) Sample.profile
    {| thid := Some "msg-1"; pthid := Some "invi-unknown" |}
    {| sender_did := "stranger" |} Sample.empty_world
  = (Ok tt, Sample.empty_world).
Proof. reflexivity. Qed.

(** ** The request attachment *)

Section RequestAttach.
Context {E : Type} `{Collaborators E}.
Variable profile : Profile.

Lemma check_mediation_world (mediation_id : option string) (w : World E) :
  snd (check_mediation mediation_id w) = w.
Proof.
  unfold check_mediation, try_except, bind, ask.
  destruct (truthy mediation_id); [|done].
  destruct (mediation_record_if_id mediation_id false w) as [?|[]]; done.
Qed.

Lemma await_active_frame (auto_accept : option bool) (conn_rec : ConnRecord) (w : World E) :
  let w' := snd (await_active profile auto_accept conn_rec w) in
  outbox w' = outbox w /\ ext w' = ext w.
Proof.
  unfold await_active, try_except.
  destruct (is_true auto_accept || debug_auto_accept_invites (settings profile)); [|done].
  pose proof (conn_rec_is_active_frame 7 (connection_id conn_rec) w) as Hframe.
  destruct (conn_rec_is_active 7 (connection_id conn_rec) w) as [[?|[]] w']; done.
Qed.

(** Only the head of [requests_attach] is looked at. *)
Lemma request_attach_head (invitation : InvitationMessage) (auto_accept : option bool)
    (service : ServiceMessage) (conn_rec : option ConnRecord) (w : World E)
    (req_attach : ReqAttach) (rest rest' : list ReqAttach) :
  requests_attach invitation = req_attach :: rest ->
  request_attach profile (with_requests_attach (req_attach :: rest') invitation)
    auto_accept service conn_rec w
  = request_attach profile invitation auto_accept service conn_rec w.
Proof.
  intros Hattach. unfold request_attach. by rewrite Hattach.
Qed.

End RequestAttach.

(** ** A credential offer attached to the invitation *)

Section AttachedOffer.
Context {E : Type} `{Collaborators E}.
Variable profile : Profile.

(** With the auto-respond setting off, a credential-offer handler ends in
    an error whatever the credential manager answers. *)
Lemma _process_cred_offer_v1_off
    (req_attach : AttachContent) (conn_rec : ConnRecord) (trace : bool) (w : World E) :
  debug_auto_respond_credential_offer (settings profile) = false ->
  _process_cred_offer_v1 profile req_attach conn_rec trace w
  = match v10_receive_offer req_attach trace (connection_id conn_rec) (ext w) with
    | (Ok _, e') =>
        (Raise (OutOfBandManagerError AutoOfferFalse), with_ext (fun _ => e') w)
    | (Raise e, e') => (Raise e, with_ext (fun _ => e') w)
    end.
Proof.
  intros Hoff. unfold _process_cred_offer_v1, bind, call.
  destruct (v10_receive_offer _ _ _ _) as [[rec|e] e']; [|done]. by rewrite Hoff.
Qed.

Lemma _process_cred_offer_v2_off
    (req_attach : AttachContent) (conn_rec : ConnRecord) (trace : bool) (w : World E) :
  debug_auto_respond_credential_offer (settings profile) = false ->
  _process_cred_offer_v2 profile req_attach conn_rec trace w
  = match v20_receive_offer req_attach trace (connection_id conn_rec) (ext w) with
    | (Ok _, e') =>
        (Raise (OutOfBandManagerError AutoOfferFalse), with_ext (fun _ => e') w)
    | (Raise e, e') => (Raise e, with_ext (fun _ => e') w)
    end.
Proof.
  intros Hoff. unfold _process_cred_offer_v2, bind, call.
  destruct (v20_receive_offer _ _ _ _) as [[rec|e] e']; [|done]. by rewrite Hoff.
Qed.

(** The attachment step on a credential offer, with the setting off. *)
Lemma request_attach_offer_off (invitation : InvitationMessage) (auto_accept : option bool)
    (service : ServiceMessage) (conn_rec : ConnRecord) (w : World E)
    (content : AttachContent) (rest : list ReqAttach)
    (receive_offer : AttachContent -> bool -> string -> E -> Res CredExRecord * E) :
  requests_attach invitation = AttachDecorator (Some content) :: rest ->
  credential_offer_type (unqualify (content_type content)) receive_offer ->
  debug_auto_respond_credential_offer (settings profile) = false ->
  request_attach profile invitation auto_accept service (Some conn_rec) w
  = match await_active profile auto_accept conn_rec w with
    | (Ok conn_rec', w') =>
        match receive_offer content (bool_decide (_trace invitation <> None))
                (connection_id conn_rec') (ext w') with
        | (Ok _, e') =>
            (Raise (OutOfBandManagerError AutoOfferFalse), with_ext (fun _ => e') w')
        | (Raise e, e') => (Raise e, with_ext (fun _ => e') w')
        end
    | (Raise e, w') => (Raise e, w')
    end.
Proof.
  intros Hattach Htype Hoff. unfold request_attach. rewrite Hattach.
  destruct Htype as [(-> & Hne1 & Hne2 & ->)|(-> & Hne1 & Hne2 & Hne3 & ->)].
  - apply String.eqb_neq in Hne1, Hne2. rewrite Hne1, Hne2, String.eqb_refl.
    unfold bind at 1.
    destruct (await_active profile auto_accept conn_rec w) as [[conn_rec'|e] w']; [|done].
    unfold bind at 1. rewrite (_process_cred_offer_v1_off _ _ _ _ Hoff).
    by destruct (v10_receive_offer _ _ _ _) as [[rec|e] e'].
  - apply String.eqb_neq in Hne1, Hne2, Hne3.
    rewrite Hne1, Hne2, Hne3, String.eqb_refl.
    unfold bind at 1.
    destruct (await_active profile auto_accept conn_rec w) as [[conn_rec'|e] w']; [|done].
    unfold bind at 1. rewrite (_process_cred_offer_v2_off _ _ _ _ Hoff).
    by destruct (v20_receive_offer _ _ _ _) as [[rec|e] e'].
Qed.

(** C8, as the code has it.  The receipt has obtained a connection,
    reused or new, the first attachment of the invitation unqualifies to a
    credential offer (of either version), and
    [debug.auto_respond_credential_offer] is off.  Then
    [receive_invitation] fails: with the auto-offer error, of kind
    [AutoRespondDisabled], raised after the credential manager received
    the offer, or else with the error of the credential manager or of the
    wait for the connection.  In each case the outbox is the one the
    connection phase left, so no credential request is sent, and the
    attachments after the first do not matter to the attachment step. *)
Theorem credential_offer_refused
    (invitation : InvitationMessage) (use_existing_connection : bool)
    (auto_accept : option bool) (alias mediation_id mediation_id' : option string)
    (service : ServiceMessage) (conn_rec : ConnRecord) (w w1 : World E)
    (content : AttachContent) (rest : list ReqAttach)
    (receive_offer : AttachContent -> bool -> string -> E -> Res CredExRecord * E) :
  fst (check_mediation mediation_id w) = Ok mediation_id' ->
  seek_connection profile invitation use_existing_connection auto_accept alias
    mediation_id' w = (Ok (Some conn_rec, service), w1) ->
  requests_attach invitation = AttachDecorator (Some content) :: rest ->
  credential_offer_type (unqualify (content_type content)) receive_offer ->
  debug_auto_respond_credential_offer (settings profile) = false ->
  receive_invitation profile invitation use_existing_connection auto_accept alias
    mediation_id w
  = match await_active profile auto_accept conn_rec w1 with
    | (Ok conn_rec', w2) =>
        match receive_offer content (bool_decide (_trace invitation <> None))
                (connection_id conn_rec') (ext w2) with
        | (Ok _, e') =>
            (Raise (OutOfBandManagerError AutoOfferFalse), with_ext (fun _ => e') w2)
        | (Raise e, e') => (Raise e, with_ext (fun _ => e') w2)
        end
    | (Raise e, w2) => (Raise e, w2)
    end
  /\ (exists e,
        fst (receive_invitation profile invitation use_existing_connection auto_accept
               alias mediation_id w) = Raise e)
  /\ outbox (snd (receive_invitation profile invitation use_existing_connection
                    auto_accept alias mediation_id w))
     = outbox w1
  /\ kind AutoOfferFalse = AutoRespondDisabled
  /\ forall rest',
       request_attach profile
         (with_requests_attach (AttachDecorator (Some content) :: rest') invitation)
         auto_accept service (Some conn_rec) w1
       = request_attach profile invitation auto_accept service (Some conn_rec) w1.
Proof.
  intros Hmed Hseek Hattach Htype Hoff.
  assert (Hr : receive_invitation profile invitation use_existing_connection auto_accept
                 alias mediation_id w
               = request_attach profile invitation auto_accept service (Some conn_rec) w1).
  { unfold receive_invitation, bind at 1.
    pose proof (check_mediation_world mediation_id w) as Hw.
    destruct (check_mediation mediation_id w) as [res w0]; simpl in Hmed, Hw.
    subst res w0. unfold bind. by rewrite Hseek. }
  rewrite (request_attach_offer_off _ _ _ _ _ _ _ _ Hattach Htype Hoff) in Hr.
  assert (Hhead : forall rest',
    request_attach profile
      (with_requests_attach (AttachDecorator (Some content) :: rest') invitation)
      auto_accept service (Some conn_rec) w1
    = request_attach profile invitation auto_accept service (Some conn_rec) w1).
  { intros rest'. by eapply request_attach_head. }
  rewrite Hr.
  pose proof (await_active_frame profile auto_accept conn_rec w1) as [Hout _].
  split; [done|].
  destruct (await_active profile auto_accept conn_rec w1) as [[conn_rec'|e] w2];
    simpl in Hout.
  - destruct (receive_offer _ _ _ _) as [[rec|e] e']; simpl;
      (split; [by eexists|]); by split.
  - split; [by eexists|]. by split.
Qed.

End AttachedOffer.

Lemma credential_offer_refused_witness :
  let invitation :=
    Sample.public_invitation "invi-1" [Sample.credential_offer; NotAttachDecorator] in
  let received :=
    {| cred_connection_id := "conn-existing"; cred_offer := Cases.offer;
       cred_trace := false |} in
  let w := Sample.world [] in
  Sample.receive invitation true w
  = (Raise (OutOfBandManagerError AutoOfferFalse), with_ext (fun _ => [received]) w)
  /\ (exists e, fst (Sample.receive invitation true w) = Raise e)
  /\ outbox (snd (Sample.receive invitation true w)) = outbox w
  /\ kind AutoOfferFalse = AutoRespondDisabled
  /\ forall rest',
       request_attach (H := Sample.agent) Sample.profile
         (with_requests_attach (AttachDecorator (Some Cases.offer) :: rest') invitation)
         None Sample.service (Some Sample.candidate) w
       = request_attach (H := Sample.agent) Sample.profile invitation None Sample.service
           (Some Sample.candidate) w.
Proof.
  intros invitation received w.
  apply (credential_offer_refused (H := Sample.agent) Sample.profile invitation true
           None None None None Sample.service Sample.candidate w w Cases.offer
           [NotAttachDecorator] (v10_receive_offer (Collaborators := Sample.agent))).
  - reflexivity.
  - reflexivity.
  - reflexivity.
  - left. repeat split; try discriminate; reflexivity.
  - reflexivity.
Defined.

(** C8 as stated fails when the receipt obtains no connection.  With the
    setting off and a credential offer as the first attachment, an
    invitation without handshake protocols from an unknown inviter fails
    with the error for a missing handshake protocol, which is not of kind
    [AutoRespondDisabled]; and one that names only a protocol the agent
    does not know returns no connection and no error at all. *)
Lemma credential_offer_without_connection :
  let bare := Cases.inline_invitation [] [Sample.credential_offer] in
  let foreign :=
    Cases.inline_invitation ["https://didcomm.org/unknown/1.0"]
      [Sample.credential_offer] in
  debug_auto_respond_credential_offer (settings Sample.profile) = false
  /\ unqualify (Collaborators := Sample.agent) (content_type Cases.offer)
     = CREDENTIAL_OFFER (Collaborators := Sample.agent)
  /\ Sample.receive bare true Sample.empty_world
     = (Raise (OutOfBandManagerError NoExistingConnectionNoHandshake), Sample.empty_world)
  /\ kind NoExistingConnectionNoHandshake <> AutoRespondDisabled
  /\ Sample.receive foreign true Sample.empty_world = (Ok None, Sample.empty_world).
Proof.
  intros bare foreign.
  split; [reflexivity|]. split; [reflexivity|].
  split; [vm_compute; reflexivity|]. split; [discriminate|].
  vm_compute; reflexivity.
Qed.

(** ** The reuse negotiation *)

Section Negotiation.
Context {E : Type} `{Collaborators E}.
Variable profile : Profile.

Lemma reuse_keys_differ (id : string) :
  (id, "reuse_msg_id") <> (id, "reuse_msg_state").
Proof. intros [=]. Qed.

Lemma without_reuse_metadata_keys (conn_rec : ConnRecord) (w : World E) :
  reuse_msg_id conn_rec (without_reuse_metadata conn_rec w) = None
  /\ reuse_msg_state conn_rec (without_reuse_metadata conn_rec w) = None.
Proof.
  unfold reuse_msg_id, reuse_msg_state, without_reuse_metadata; simpl. split.
  - rewrite lookup_delete_ne by (symmetry; apply reuse_keys_differ).
    apply lookup_delete_eq.
  - apply lookup_delete_eq.
Qed.

(** The state is read after [reuse_msg_id] is deleted, which does not
    disturb it. *)
Lemma reuse_msg_state_after_delete (conn_rec : ConnRecord) (w : World E) :
  reuse_msg_state conn_rec
    (with_conn_metadata (delete (connection_id conn_rec, "reuse_msg_id")) w)
  = reuse_msg_state conn_rec w.
Proof.
  unfold reuse_msg_state; simpl. apply lookup_delete_ne, reuse_keys_differ.
Qed.

Lemma negotiate_reuse_timeout (invitation : InvitationMessage) (conn_rec : ConnRecord)
    (w w' : World E) :
  negotiation_ends profile invitation conn_rec w (Raise TimeoutError) w' ->
  negotiate_reuse profile invitation conn_rec w
  = (Ok None,
     with_conn_records (put_record (set_state conn_rec ABANDONED))
       (without_reuse_metadata conn_rec w')).
Proof.
  intros (w1 & Hsend & Hwait).
  unfold negotiate_reuse, bind at 1. rewrite Hsend.
  unfold try_except, bind at 1. by rewrite Hwait.
Qed.

Lemma negotiate_reuse_not_accepted (invitation : InvitationMessage) (conn_rec : ConnRecord)
    (w w' : World E) :
  negotiation_ends profile invitation conn_rec w (Ok tt) w' ->
  reuse_msg_state conn_rec w' = Some "not_accepted" ->
  negotiate_reuse profile invitation conn_rec w
  = (Ok None, with_conn_metadata (delete (connection_id conn_rec, "reuse_msg_id")) w').
Proof.
  intros (w1 & Hsend & Hwait) Hstate.
  unfold negotiate_reuse, bind at 1. rewrite Hsend.
  unfold try_except, bind at 1. rewrite Hwait.
  unfold bind, metadata_delete, metadata_get; simpl.
  rewrite <- (reuse_msg_state_after_delete conn_rec w') in Hstate.
  unfold reuse_msg_state in Hstate; simpl in Hstate. by rewrite Hstate.
Qed.

Lemma negotiate_reuse_resolved (invitation : InvitationMessage) (conn_rec : ConnRecord)
    (w w' : World E) :
  negotiation_ends profile invitation conn_rec w (Ok tt) w' ->
  reuse_msg_state conn_rec w' <> Some "not_accepted" ->
  negotiate_reuse profile invitation conn_rec w
  = (Ok (Some conn_rec), without_reuse_metadata conn_rec w').
Proof.
  intros (w1 & Hsend & Hwait) Hstate.
  unfold negotiate_reuse, bind at 1. rewrite Hsend.
  unfold try_except, bind at 1. rewrite Hwait.
  unfold bind, metadata_delete, metadata_get; simpl.
  rewrite <- (reuse_msg_state_after_delete conn_rec w') in Hstate.
  unfold reuse_msg_state in Hstate; simpl in Hstate.
  by rewrite bool_decide_eq_false_2.
Qed.

End Negotiation.

(** ** Receiving an invitation without attachments from a known public DID *)

Section PlainInvitation.
Context {E : Type} `{Collaborators E}.
Variable profile : Profile.

Lemma request_attach_none (invitation : InvitationMessage) (auto_accept : option bool)
    (service : ServiceMessage) (conn_rec : option ConnRecord) (w : World E) :
  requests_attach invitation = [] ->
  request_attach profile invitation auto_accept service conn_rec w = (Ok conn_rec, w).
Proof. intros Hnone. unfold request_attach. by rewrite Hnone. Qed.

(** With a candidate, handshake protocols and no attachment, a receipt
    that permits reuse is the negotiation, followed by the handshake
    loop if the negotiation leaves no connection. *)
Lemma receive_invitation_negotiates
    (invitation : InvitationMessage) (auto_accept : option bool)
    (alias mediation_id mediation_id' : option string) (service : ServiceMessage)
    (public_did : string) (conn_rec : ConnRecord) (w : World E) :
  arrives invitation mediation_id mediation_id' service public_did w ->
  candidate_for public_did conn_rec w ->
  handshake_protocols invitation <> [] ->
  requests_attach invitation = [] ->
  receive_invitation profile invitation true auto_accept alias mediation_id w
  = match negotiate_reuse profile invitation conn_rec w with
    | (Ok (Some c), w') => (Ok (Some c), w')
    | (Ok None, w') =>
        match create_connection invitation (Some public_did) auto_accept alias
                mediation_id' (unq_handshake_protos invitation) service w' with
        | (Ok (c, _), w'') => (Ok c, w'')
        | (Raise e, w'') => (Raise e, w'')
        end
    | (Raise e, w') => (Raise e, w')
    end.
Proof.
  intros (Hmed & Hlen & Hservice) Hcand Hprotos Hnone.
  assert (Hp : (0 <? length (handshake_protocols invitation))%nat = true).
  { destruct (handshake_protocols invitation); [done|]. reflexivity. }
  unfold receive_invitation, bind at 1.
  pose proof (check_mediation_world mediation_id w) as Hw.
  destruct (check_mediation mediation_id w) as [res w0]; simpl in Hmed, Hw.
  subst res w0.
  unfold bind at 1, seek_connection.
  rewrite Hlen, Hp, orb_true_r; simpl.
  unfold bind at 1. rewrite Hservice.
  unfold bind at 1. unfold candidate_for in Hcand. rewrite Hcand.
  unfold bind at 1, reuse_connection.
  rewrite unq_handshake_protos_length, Hp, Hnone; simpl.
  destruct (negotiate_reuse profile invitation conn_rec w) as [[[c|]|e] w'].
  - unfold ret; simpl. by rewrite request_attach_none.
  - rewrite <- unq_handshake_protos_length in Hp.
    destruct (length (unq_handshake_protos invitation)) eqn:Hn; [done|]; simpl.
    destruct (create_connection _ _ _ _ _ _ _ w') as [[[c sv]|e] w'']; [|done].
    by rewrite request_attach_none.
  - done.
Qed.

(** While no reply comes in, the metadata stays as it is and the wait for
    a state other than [initial] runs out. *)
Lemma tick_silent (w : World E) :
  Forall (fun ev => is_reply ev = false) (inbound w) ->
  conn_metadata (tick w) = conn_metadata w
  /\ Forall (fun ev => is_reply ev = false) (inbound (tick w)).
Proof.
  unfold tick. intros Hsilent.
  destruct (inbound w) as [|ev rest] eqn:Hin; [by rewrite Hin|].
  inversion Hsilent as [|? ? Hev Hrest]; subst.
  destruct ev as [id th r|id th r|id st|]; simpl in *; try done.
  by destruct (find_record id (conn_records w)).
Qed.

Lemma check_reuse_msg_state_silent (timeout : nat) (conn_rec : ConnRecord) (w : World E) :
  reuse_msg_state conn_rec w = Some "initial" ->
  Forall (fun ev => is_reply ev = false) (inbound w) ->
  exists w', check_reuse_msg_state timeout conn_rec w = (Raise TimeoutError, w').
Proof.
  revert w. induction timeout as [|n IH]; intros w Hstate Hsilent; simpl;
    unfold reuse_msg_state in Hstate; rewrite Hstate; simpl.
  - by exists w.
  - destruct (tick_silent w Hsilent) as [Hmeta Hsilent'].
    apply IH; [|done]. unfold reuse_msg_state. by rewrite Hmeta.
Qed.

Lemma create_handshake_reuse_message_sent (invitation : InvitationMessage)
    (conn_rec : ConnRecord) (w : World E) (targets : list string) :
  responder profile = true ->
  fetch_connection_targets conn_rec (with_uuids S w) = Ok targets ->
  create_handshake_reuse_message profile invitation conn_rec w
  = (Ok tt,
     with_conn_metadata (insert (connection_id conn_rec, "reuse_msg_state") "initial")
       (with_conn_metadata
          (insert (connection_id conn_rec, "reuse_msg_id") (uuid4 (uuids w)))
          (with_outbox
             (fun o =>
                (o ++ [(HandshakeReuse (uuid4 (uuids w))
                          {| thid := Some (uuid4 (uuids w));
                             pthid := invitation_msg_id conn_rec |},
                        targets)])%list)
             (with_uuids S w)))).
Proof.
  intros Hresp Htargets.
  unfold create_handshake_reuse_message, try_except, bind, new_id, ask.
  by rewrite Htargets, Hresp.
Qed.

Lemma no_reply_times_out (invitation : InvitationMessage) (conn_rec : ConnRecord)
    (w : World E) (targets : list string) :
  responder profile = true ->
  fetch_connection_targets conn_rec (with_uuids S w) = Ok targets ->
  Forall (fun ev => is_reply ev = false) (inbound w) ->
  exists w', negotiation_ends profile invitation conn_rec w (Raise TimeoutError) w'.
Proof.
  intros Hresp Htargets Hsilent.
  pose proof (create_handshake_reuse_message_sent invitation conn_rec w targets
                Hresp Htargets) as Hsent.
  destruct (check_reuse_msg_state_silent 15 conn_rec
              (snd (create_handshake_reuse_message profile invitation conn_rec w)))
    as [w' Hwait].
  - rewrite Hsent. unfold reuse_msg_state. apply lookup_insert_eq.
  - by rewrite Hsent.
  - exists w'. eexists. split; [exact Hsent|]. by rewrite Hsent in Hwait.
Qed.

(** A receipt whose negotiation ends accepted returns the candidate and
    stores nothing new. *)
Lemma receive_invitation_accepted
    (invitation : InvitationMessage) (auto_accept : option bool)
    (alias mediation_id mediation_id' : option string) (service : ServiceMessage)
    (public_did : string) (conn_rec : ConnRecord) (w w' : World E) :
  arrives invitation mediation_id mediation_id' service public_did w ->
  candidate_for public_did conn_rec w ->
  handshake_protocols invitation <> [] ->
  requests_attach invitation = [] ->
  negotiation_ends profile invitation conn_rec w (Ok tt) w' ->
  reuse_msg_state conn_rec w' = Some "accepted" ->
  receive_invitation profile invitation true auto_accept alias mediation_id w
  = (Ok (Some conn_rec), without_reuse_metadata conn_rec w').
Proof.
  intros Harr Hcand Hprotos Hnone Hends Hstate.
  rewrite (receive_invitation_negotiates _ _ _ _ _ _ _ _ _ Harr Hcand Hprotos Hnone).
  rewrite (negotiate_reuse_resolved profile _ _ _ _ Hends); [done|].
  by rewrite Hstate.
Qed.

Lemma candidate_for_records (public_did : string) (conn_rec : ConnRecord)
    (w w' : World E) :
  conn_records w' = conn_records w ->
  candidate_for public_did conn_rec w ->
  candidate_for public_did conn_rec w'.
Proof.
  unfold candidate_for. rewrite !find_existing_connection_eq.
  intros Hrec Hfind. rewrite Hrec. congruence.
Qed.

(** C2, as the code has it.  Two invitations without attachments from
    the public DID of an active connection, both received with reuse
    permitted: if the negotiation of each receipt ends accepted (and the
    store is not written to by other tasks meanwhile), both receipts
    return the candidate and the store holds the same records as before,
    so no connection record is created. *)
Theorem reuse_idempotent_when_accepted
    (invitation1 invitation2 : InvitationMessage) (auto_accept1 auto_accept2 : option bool)
    (alias1 alias2 : option string)
    (mediation_id1 mediation_id1' mediation_id2 mediation_id2' : option string)
    (service1 service2 : ServiceMessage)
    (public_did : string) (conn_rec : ConnRecord) (w wa wb : World E) :
  let r1 :=
    receive_invitation profile invitation1 true auto_accept1 alias1 mediation_id1 w in
  let r2 :=
    receive_invitation profile invitation2 true auto_accept2 alias2 mediation_id2
      (snd r1) in
  candidate_for public_did conn_rec w ->
  arrives invitation1 mediation_id1 mediation_id1' service1 public_did w ->
  handshake_protocols invitation1 <> [] ->
  requests_attach invitation1 = [] ->
  negotiation_ends profile invitation1 conn_rec w (Ok tt) wa ->
  reuse_msg_state conn_rec wa = Some "accepted" ->
  conn_records wa = conn_records w ->
  arrives invitation2 mediation_id2 mediation_id2' service2 public_did (snd r1) ->
  handshake_protocols invitation2 <> [] ->
  requests_attach invitation2 = [] ->
  negotiation_ends profile invitation2 conn_rec (snd r1) (Ok tt) wb ->
  reuse_msg_state conn_rec wb = Some "accepted" ->
  conn_records wb = conn_records (snd r1) ->
  fst r1 = Ok (Some conn_rec)
  /\ fst r2 = Ok (Some conn_rec)
  /\ conn_records (snd r1) = conn_records w
  /\ conn_records (snd r2) = conn_records w.
Proof.
  intros r1 r2 Hcand Harr1 Hp1 Hn1 Hends1 Hacc1 Hrec1 Harr2 Hp2 Hn2 Hends2 Hacc2 Hrec2.
  assert (Hr1 : r1 = (Ok (Some conn_rec), without_reuse_metadata conn_rec wa)).
  { subst r1. by eapply receive_invitation_accepted. }
  assert (Hw1 : conn_records (snd r1) = conn_records w).
  { rewrite Hr1; simpl. done. }
  assert (Hr2 : r2 = (Ok (Some conn_rec), without_reuse_metadata conn_rec wb)).
  { subst r2. eapply receive_invitation_accepted; try done.
    by eapply candidate_for_records. }
  rewrite Hr2; simpl. rewrite Hr1 at 1; simpl.
  repeat split; try done. by rewrite Hrec2.
Qed.

End PlainInvitation.

Lemma reuse_idempotent_when_accepted_witness :
  let invitation1 := Sample.public_invitation "invi-1" [] in
  let invitation2 := Sample.public_invitation "invi-2" [] in
  let w := Sample.world [Sample.accept 0; Sample.accept 1] in
  let r1 := Sample.receive invitation1 true w in
  let r2 := Sample.receive invitation2 true (snd r1) in
  fst r1 = Ok (Some Sample.candidate)
  /\ fst r2 = Ok (Some Sample.candidate)
  /\ conn_records (snd r1) = conn_records w
  /\ conn_records (snd r2) = conn_records w.
Proof.
  intros invitation1 invitation2 w r1 r2.
  apply (reuse_idempotent_when_accepted (H := Sample.agent) Sample.profile
           invitation1 invitation2 None None None None None None None None
           Sample.service Sample.service Sample.public_did Sample.candidate w
           (Sample.waited invitation1 w) (Sample.waited invitation2 (snd r1))).
  - reflexivity.
  - repeat split; reflexivity.
  - discriminate.
  - reflexivity.
  - exists (snd (create_handshake_reuse_message (H := Sample.agent) Sample.profile
                   invitation1 Sample.candidate w)).
    split; vm_compute; reflexivity.
  - vm_compute; reflexivity.
  - vm_compute; reflexivity.
  - repeat split; vm_compute; reflexivity.
  - discriminate.
  - reflexivity.
  - exists (snd (create_handshake_reuse_message (H := Sample.agent) Sample.profile
                   invitation2 Sample.candidate (snd r1))).
    split; vm_compute; reflexivity.
  - vm_compute; reflexivity.
  - vm_compute; reflexivity.
Defined.

(** C2 as stated fails: the first negotiation ends accepted and the first
    receipt returns the candidate, but no reply to the second reuse
    message arrives, so the second receipt times out, abandons the
    candidate and returns a connection with another id. *)
Lemma second_receipt_differs_after_timeout :
  let invitation1 := Sample.public_invitation "invi-1" [] in
  let invitation2 := Sample.public_invitation "invi-2" [] in
  let w := Sample.world [Sample.accept 0] in
  let r1 := Sample.receive invitation1 true w in
  let r2 := Sample.receive invitation2 true (snd r1) in
  negotiation_ends (H := Sample.agent) Sample.profile invitation1 Sample.candidate w
    (Ok tt) (Sample.waited invitation1 w)
  /\ reuse_msg_state Sample.candidate (Sample.waited invitation1 w) = Some "accepted"
  /\ fst r1 = Ok (Some Sample.candidate)
  /\ (exists c, fst r2 = Ok (Some c)
                /\ connection_id c <> connection_id Sample.candidate)
  /\ length (conn_records (snd r2)) = S (length (conn_records w)).
Proof.
  intros invitation1 invitation2 w r1 r2. split; [|split; [|split; [|split]]].
  - exists (snd (create_handshake_reuse_message (H := Sample.agent) Sample.profile
                   invitation1 Sample.candidate w)).
    split; vm_compute; reflexivity.
  - vm_compute; reflexivity.
  - vm_compute; reflexivity.
  - exists (Sample.new_conn_rec (snd r1) (Some Sample.public_did)).
    split; [vm_compute; reflexivity|]. vm_compute. discriminate.
  - vm_compute; reflexivity.
Qed.

(** Without any reply, each of the two receipts times out and each stores
    a new connection record. *)
Example two_timeouts_two_records :
  let w := Sample.world [] in
  let r1 := Sample.receive (Sample.public_invitation "invi-1" []) true w in
  let r2 := Sample.receive (Sample.public_invitation "invi-2" []) true (snd r1) in
  length (conn_records (snd r2)) = 2 + length (conn_records w).
Proof. vm_compute; reflexivity. Qed.

(** C5.  A negotiation refused by a problem report: the waiting receipt
    reads [not_accepted] back, deletes [reuse_msg_id], and returns with
    [reuse_msg_state] still in the metadata of the candidate. *)
Theorem not_accepted_keeps_reuse_msg_state :
  let invitation := Sample.public_invitation "invi-1" [] in
  let w := Sample.world [Sample.refuse 0] in
  let r := Sample.receive invitation true w in
  reuse_msg_state Sample.candidate (Sample.waited invitation w) = Some "not_accepted"
  /\ reuse_msg_id Sample.candidate (snd r) = None
  /\ reuse_msg_state Sample.candidate (snd r) = Some "not_accepted".
Proof. vm_compute. repeat split; reflexivity. Qed.

Section Refusal.
Context {E : Type} `{Collaborators E}.
Variable profile : Profile.

(** The same in general: after a refused negotiation only
    [reuse_msg_id] is gone. *)
Lemma negotiate_reuse_not_accepted_metadata (invitation : InvitationMessage)
    (conn_rec : ConnRecord) (w w' : World E) :
  negotiation_ends profile invitation conn_rec w (Ok tt) w' ->
  reuse_msg_state conn_rec w' = Some "not_accepted" ->
  let r := negotiate_reuse profile invitation conn_rec w in
  fst r = Ok None
  /\ reuse_msg_id conn_rec (snd r) = None
  /\ reuse_msg_state conn_rec (snd r) = Some "not_accepted".
Proof.
  intros Hends Hstate r. subst r.
  rewrite (negotiate_reuse_not_accepted profile _ _ _ _ Hends Hstate); simpl.
  split; [done|]. split.
  - unfold reuse_msg_id; simpl. apply lookup_delete_eq.
  - by rewrite reuse_msg_state_after_delete.
Qed.

End Refusal.

(** ** The handshake loop *)

Lemma filter_other_id (x : string) (l : list string) :
  x ∉ l -> List.filter (fun y => negb (String.eqb y x)) l = l.
Proof.
  induction l as [|z t IH]; simpl; [done|].
  rewrite elem_of_cons. intros Hnot.
  destruct (String.eqb z x) eqn:Hzx; simpl.
  - apply String.eqb_eq in Hzx. naive_solver.
  - f_equal. apply IH. naive_solver.
Qed.

Lemma filter_other_comm (x y : string) (l : list string) :
  List.filter (fun z => negb (String.eqb z y))
    (List.filter (fun z => negb (String.eqb z x)) l)
  = List.filter (fun z => negb (String.eqb z x))
      (List.filter (fun z => negb (String.eqb z y)) l).
Proof.
  induction l as [|z t IH]; simpl; [done|].
  destruct (String.eqb z x) eqn:Hzx, (String.eqb z y) eqn:Hzy; simpl;
    rewrite ?Hzx, ?Hzy; simpl; by rewrite IH.
Qed.

(** A key already seen is a key filtered out. *)
Lemma fromkeys_from_cons_seen (x : string) (seen l : list string) :
  fromkeys_from (x :: seen) l
  = List.filter (fun y => negb (String.eqb y x)) (fromkeys_from seen l).
Proof.
  revert x seen. induction l as [|y l IH]; intros x seen; simpl; [done|].
  destruct (String.eqb y x) eqn:Hyx.
  - apply String.eqb_eq in Hyx as ->.
    rewrite bool_decide_eq_true_2 by (rewrite elem_of_cons; by left).
    case_bool_decide as Hseen; [apply IH|].
    simpl. rewrite String.eqb_refl; simpl.
    symmetry. apply filter_other_id.
    rewrite fromkeys_from_elem, elem_of_cons. naive_solver.
  - assert (Hne : y <> x) by by apply String.eqb_neq.
    case_bool_decide as Hin; case_bool_decide as Hseen.
    + apply IH.
    + exfalso. apply elem_of_cons in Hin. naive_solver.
    + exfalso. apply Hin. rewrite elem_of_cons. by right.
    + simpl. rewrite Hyx; simpl. f_equal.
      rewrite (IH y (x :: seen)), (IH x seen), (IH y seen).
      apply filter_other_comm.
Qed.

(** [dict.fromkeys] lists the keys in the order of their first occurrence:
    the head comes first, and the rest is the keys of the tail without it. *)
Lemma fromkeys_cons (x : string) (l : list string) :
  fromkeys (x :: l) = x :: List.filter (fun y => negb (String.eqb y x)) (fromkeys l).
Proof.
  unfold fromkeys; simpl. f_equal. apply fromkeys_from_cons_seen.
Qed.

Section Handshake.
Context {E : Type} `{Collaborators E}.




End Handshake.



Section HandshakeOrder.
Context {E : Type} `{Collaborators E}.
Variable profile : Profile.



End HandshakeOrder.


(** * Further properties *)

(** ** The checks on entry *)

Section EntryChecks.
Context {E : Type} `{Collaborators E}.
Variable profile : Profile.

Lemma receive_invitation_after_mediation
    (invitation : InvitationMessage) (use_existing_connection : bool)
    (auto_accept : option bool) (alias mediation_id mediation_id' : option string)
    (w : World E) :
  fst (check_mediation mediation_id w) = Ok mediation_id' ->
  receive_invitation profile invitation use_existing_connection auto_accept alias
    mediation_id w
  = match seek_connection profile invitation use_existing_connection auto_accept alias
            mediation_id' w with
    | (Ok (conn_rec, service), w') =>
        request_attach profile invitation auto_accept service conn_rec w'
    | (Raise e, w') => (Raise e, w')
    end.
Proof.
  intros Hmed. unfold receive_invitation, bind at 1.
  pose proof (check_mediation_world mediation_id w) as Hw.
  destruct (check_mediation mediation_id w) as [res w0]; simpl in Hmed, Hw.
  subst res w0. unfold bind.
  by destruct (seek_connection _ _ _ _ _ _ w) as [[[c sv]|e] w'].
Qed.

(** X1.  An invitation whose service array does not hold exactly one
    entry is refused for that, and one with a single service but neither a
    handshake protocol nor an attachment is refused for its shape; in both
    cases nothing is looked up and the world is as before. *)
Theorem invitation_refused_on_entry
    (invitation : InvitationMessage) (use_existing_connection : bool)
    (auto_accept : option bool) (alias mediation_id mediation_id' : option string)
    (w : World E) :
  fst (check_mediation mediation_id w) = Ok mediation_id' ->
  length (services invitation) <> 1
  \/ (requests_attach invitation = [] /\ handshake_protocols invitation = []) ->
  receive_invitation profile invitation use_existing_connection auto_accept alias
    mediation_id w
  = (Raise (OutOfBandManagerError
              (if (length (services invitation) =? 1)%nat
               then MustSpecifyProtocolsOrAttachments
               else ServiceArrayNotSingleton)), w)
  /\ kind ServiceArrayNotSingleton = InvalidInvitationShape
  /\ kind MustSpecifyProtocolsOrAttachments = InvalidInvitationShape.
Proof.
  intros Hmed Hbad. split; [|done].
  rewrite (receive_invitation_after_mediation _ _ _ _ _ _ _ Hmed).
  unfold seek_connection.
  destruct (length (services invitation) =? 1)%nat eqn:Hlen; simpl; [|done].
  destruct Hbad as [Hne|[-> ->]]; [|done].
  apply Nat.eqb_eq in Hlen. done.
Qed.

(** X2.  A mediation id that the mediation lookup does not find is
    dropped: the invitation is received as if no mediation id had been
    given. *)
Theorem unknown_mediation_id_is_dropped
    (invitation : InvitationMessage) (use_existing_connection : bool)
    (auto_accept : option bool) (alias : option string) (mediation_id : string)
    (w : World E) :
  mediation_id <> "" ->
  mediation_record_if_id (Some mediation_id) false w = Raise StorageNotFoundError ->
  receive_invitation profile invitation use_existing_connection auto_accept alias
    (Some mediation_id) w
  = receive_invitation profile invitation use_existing_connection auto_accept alias
      None w.
Proof.
  intros Hne Hlookup.
  rewrite (receive_invitation_after_mediation _ _ _ _ (Some mediation_id) None).
  - by rewrite (receive_invitation_after_mediation _ _ _ _ None None).
  - apply String.eqb_neq in Hne.
    unfold check_mediation, truthy. rewrite Hne; simpl.
    unfold try_except, bind, ask. by rewrite Hlookup.
Qed.

(** Any other error of the mediation lookup is the error of the receipt. *)
Lemma mediation_error_is_raised
    (invitation : InvitationMessage) (use_existing_connection : bool)
    (auto_accept : option bool) (alias : option string) (mediation_id : string)
    (e : Exc) (w : World E) :
  mediation_id <> "" ->
  e <> StorageNotFoundError ->
  mediation_record_if_id (Some mediation_id) false w = Raise e ->
  receive_invitation profile invitation use_existing_connection auto_accept alias
    (Some mediation_id) w
  = (Raise e, w).
Proof.
  intros Hne He Hlookup.
  apply String.eqb_neq in Hne.
  unfold receive_invitation, bind at 1, check_mediation, truthy. rewrite Hne; simpl.
  unfold try_except, bind, ask. rewrite Hlookup.
  by destruct e.
Qed.

End EntryChecks.

Lemma invitation_refused_on_entry_witness :
  let invitation := Cases.inline_invitation [] [] in
  Sample.receive invitation true Sample.empty_world
  = (Raise (OutOfBandManagerError MustSpecifyProtocolsOrAttachments), Sample.empty_world)
  /\ kind ServiceArrayNotSingleton = InvalidInvitationShape
  /\ kind MustSpecifyProtocolsOrAttachments = InvalidInvitationShape.
Proof.
  intros invitation.
  apply (invitation_refused_on_entry (H := Sample.agent) Sample.profile invitation true
           None None None None Sample.empty_world).
  - reflexivity.
  - right. split; reflexivity.
Defined.

Lemma unknown_mediation_id_is_dropped_witness :
  let invitation := Sample.public_invitation "invi-1" [] in
  receive_invitation (H := Sample.agent) Sample.profile invitation false None None
    (Some "mediation-7") (Sample.world [])
  = receive_invitation (H := Sample.agent) Sample.profile invitation false None None
      None (Sample.world []).
Proof.
  intros invitation.
  apply (unknown_mediation_id_is_dropped (H := Sample.agent) Sample.profile invitation
           false None None "mediation-7" (Sample.world [])).
  - discriminate.
  - reflexivity.
Defined.

(** ** Receipts that run no reuse negotiation *)

Section WithoutNegotiation.
Context {E : Type} `{Collaborators E}.
Variable profile : Profile.

(** X3.  An invitation with an inline service block carries no public
    DID: no existing connection is looked for, whatever the caller
    permits.  The receipt is the handshake loop (called without a public
    DID) followed by the attachment step, or the error for a missing
    handshake protocol when the invitation names none. *)
Theorem inline_service_is_never_reused
    (invitation : InvitationMessage) (use_existing_connection : bool)
    (auto_accept : option bool) (alias mediation_id mediation_id' : option string)
    (service : ServiceMessage) (w : World E) :
  fst (check_mediation mediation_id w) = Ok mediation_id' ->
  services invitation = [InlineService service] ->
  requests_attach invitation <> [] \/ handshake_protocols invitation <> [] ->
  receive_invitation profile invitation use_existing_connection auto_accept alias
    mediation_id w
  = if (length (unq_handshake_protos invitation) =? 0)%nat
    then (Raise (OutOfBandManagerError NoExistingConnectionNoHandshake), w)
    else
      match create_connection invitation None auto_accept alias mediation_id'
              (unq_handshake_protos invitation) service w with
      | (Ok (conn_rec, service'), w') =>
          request_attach profile invitation auto_accept service' conn_rec w'
      | (Raise e, w') => (Raise e, w')
      end.
Proof.
  intros Hmed Hservices Hshape.
  rewrite (receive_invitation_after_mediation profile _ _ _ _ _ _ _ Hmed).
  unfold seek_connection, get_service. rewrite Hservices; simpl.
  assert (Hok : (0 <? length (requests_attach invitation))%nat
                || (0 <? length (handshake_protocols invitation))%nat = true).
  { destruct Hshape as [Hne|Hne].
    - destruct (requests_attach invitation); [done|]. reflexivity.
    - destruct (handshake_protocols invitation); [done|]. apply orb_true_r. }
  rewrite Hok; simpl. unfold bind, ret; simpl.
  by destruct (length (unq_handshake_protos invitation) =? 0)%nat.
Qed.

Lemma create_connection_unsupported
    (invitation : InvitationMessage) (public_did : option string)
    (auto_accept : option bool) (alias mediation_id : option string)
    (protos : list (option HSProto)) (service : ServiceMessage) (w : World E) :
  Forall (fun proto => proto = None) protos ->
  create_connection invitation public_did auto_accept alias mediation_id protos service w
  = (Ok (None, service), w).
Proof.
  induction 1 as [|proto protos -> _ IH]; [done|].
  simpl. unfold bind, ret; simpl. apply IH.
Qed.

Lemma unq_handshake_protos_unsupported (invitation : InvitationMessage) :
  (forall proto, proto ∈ handshake_protocols invitation ->
                 HSProto_get (unqualify proto) = None) ->
  Forall (fun proto => proto = None) (unq_handshake_protos invitation).
Proof.
  intros Hnone. unfold unq_handshake_protos.
  change (Forall (fun proto => proto = None)
            (HSProto_get <$> fromkeys (unqualify <$> handshake_protocols invitation))).
  apply Forall_fmap, Forall_forall. intros name Hin; simpl.
  apply fromkeys_elem, list_elem_of_fmap in Hin as (proto & -> & Hin).
  by apply Hnone.
Qed.

(** X4.  When none of the handshake protocols named on an invitation with
    an inline service is one the agent knows, no strategy is run and the
    receipt returns no connection, without an error and without looking
    at the attachments. *)
Theorem unsupported_protocols_give_no_connection
    (invitation : InvitationMessage) (use_existing_connection : bool)
    (auto_accept : option bool) (alias mediation_id mediation_id' : option string)
    (service : ServiceMessage) (w : World E) :
  fst (check_mediation mediation_id w) = Ok mediation_id' ->
  services invitation = [InlineService service] ->
  handshake_protocols invitation <> [] ->
  (forall proto, proto ∈ handshake_protocols invitation ->
                 HSProto_get (unqualify proto) = None) ->
  receive_invitation profile invitation use_existing_connection auto_accept alias
    mediation_id w
  = (Ok None, w).
Proof.
  intros Hmed Hservices Hprotos Hnone.
  rewrite (receive_invitation_after_mediation profile _ _ _ _ _ _ _ Hmed).
  unfold seek_connection, get_service. rewrite Hservices; simpl.
  assert (Hp : (0 <? length (handshake_protocols invitation))%nat = true).
  { destruct (handshake_protocols invitation); [done|]. reflexivity. }
  rewrite Hp, orb_true_r; simpl. unfold bind, ret; simpl.
  rewrite <- unq_handshake_protos_length in Hp.
  destruct (length (unq_handshake_protos invitation)) eqn:Hlen; [done|]; simpl.
  rewrite create_connection_unsupported by by apply unq_handshake_protos_unsupported.
  unfold request_attach. by destruct (requests_attach invitation).
Qed.

(** X5.  The attachment step, for a first attachment that no handler
    takes: something that is not an attachment decorator is an error, a
    decorator without data is passed over in silence and the connection
    is returned, and a type other than the four known ones is an error
    that names the type. *)
Theorem request_attach_without_handler
    (invitation : InvitationMessage) (auto_accept : option bool)
    (service : ServiceMessage) (conn_rec : ConnRecord) (w : World E)
    (req_attach : ReqAttach) (rest : list ReqAttach) :
  requests_attach invitation = req_attach :: rest ->
  match req_attach with
  | NotAttachDecorator =>
      request_attach profile invitation auto_accept service (Some conn_rec) w
      = (Raise (OutOfBandManagerError AttachNotProperlyFormatted), w)
  | AttachDecorator None =>
      request_attach profile invitation auto_accept service (Some conn_rec) w
      = (Ok (Some conn_rec), w)
  | AttachDecorator (Some content) =>
      unqualify (content_type content) <> PRESENTATION_REQUEST ->
      unqualify (content_type content) <> PRES_20_REQUEST ->
      unqualify (content_type content) <> CREDENTIAL_OFFER ->
      unqualify (content_type content) <> CRED_20_OFFER ->
      request_attach profile invitation auto_accept service (Some conn_rec) w
      = (Raise (OutOfBandManagerError (UnsupportedAttachType (content_type content))), w)
  end.
Proof.
  intros Hattach. unfold request_attach. rewrite Hattach.
  destruct req_attach as [[content|]|]; try done.
  intros H1 H2 H3 H4. apply String.eqb_neq in H1, H2, H3, H4.
  by rewrite H1, H2, H3, H4.
Qed.

(** X6.  An invitation with an attachment from a public DID for which an
    active connection exists, received with reuse permitted, goes
    straight to the attachment step on that connection: no reuse message
    is sent and no handshake strategy is run, even if the invitation
    names handshake protocols. *)
Theorem attachment_goes_to_existing_connection
    (invitation : InvitationMessage) (auto_accept : option bool)
    (alias mediation_id mediation_id' : option string) (service : ServiceMessage)
    (public_did : string) (conn_rec : ConnRecord) (w : World E) :
  arrives invitation mediation_id mediation_id' service public_did w ->
  candidate_for public_did conn_rec w ->
  requests_attach invitation <> [] ->
  receive_invitation profile invitation true auto_accept alias mediation_id w
  = request_attach profile invitation auto_accept service (Some conn_rec) w.
Proof.
  intros (Hmed & Hlen & Hservice) Hcand Hattach.
  rewrite (receive_invitation_after_mediation profile _ _ _ _ _ _ _ Hmed).
  assert (Ha : (0 <? length (requests_attach invitation))%nat = true).
  { destruct (requests_attach invitation); [done|]. reflexivity. }
  unfold seek_connection. rewrite Hlen, Ha; simpl.
  unfold bind at 1. rewrite Hservice.
  unfold bind at 1. unfold candidate_for in Hcand. rewrite Hcand.
  unfold bind at 1. rewrite reuse_connection_cases, Ha.
  unfold reuse_applicable.
  by destruct (0 <? length (handshake_protocols invitation))%nat.
Qed.

End WithoutNegotiation.

Lemma inline_service_is_never_reused_witness :
  let invitation := Cases.inline_invitation [] [Sample.credential_offer] in
  Sample.receive invitation true (Sample.world [])
  = (Raise (OutOfBandManagerError NoExistingConnectionNoHandshake), Sample.world []).
Proof.
  intros invitation.
  apply (inline_service_is_never_reused (H := Sample.agent) Sample.profile invitation
           true None None None None Cases.inline_service (Sample.world [])).
  - reflexivity.
  - reflexivity.
  - left. discriminate.
Defined.

Lemma unsupported_protocols_give_no_connection_witness :
  let invitation :=
    Cases.inline_invitation ["https://didcomm.org/handshake/9.9"; "telepathy/1.0"]
      [Sample.credential_offer] in
  Sample.receive invitation true (Sample.world []) = (Ok None, Sample.world []).
Proof.
  intros invitation.
  apply (unsupported_protocols_give_no_connection (H := Sample.agent) Sample.profile
           invitation true None None None None Cases.inline_service (Sample.world [])).
  - reflexivity.
  - reflexivity.
  - discriminate.
  - intros proto Hin. simpl in Hin.
    apply elem_of_cons in Hin as [->|Hin]; [reflexivity|].
    apply elem_of_cons in Hin as [->|Hin]; [reflexivity|].
    by apply elem_of_nil in Hin.
Defined.

Lemma request_attach_without_handler_witness :
  let content :=
    {| content_type := "https://didcomm.org/basicmessage/1.0/message";
       content_id := "hello-1";
       content_body := "hello" |} in
  let invitation := Sample.public_invitation "invi-1" [AttachDecorator (Some content)] in
  request_attach (H := Sample.agent) Sample.profile invitation None Sample.service
    (Some Sample.candidate) (Sample.world [])
  = (Raise (OutOfBandManagerError (UnsupportedAttachType (content_type content))),
     Sample.world []).
Proof.
  intros content invitation.
  apply (request_attach_without_handler (H := Sample.agent) Sample.profile invitation
           None Sample.service Sample.candidate (Sample.world [])
           (AttachDecorator (Some content)) [] eq_refl);
    discriminate.
Defined.

Lemma attachment_goes_to_existing_connection_witness :
  let invitation := Sample.public_invitation "invi-1" [AttachDecorator None] in
  Sample.receive invitation true (Sample.world [])
  = request_attach (H := Sample.agent) Sample.profile invitation None Sample.service
      (Some Sample.candidate) (Sample.world []).
Proof.
  intros invitation.
  apply (attachment_goes_to_existing_connection (H := Sample.agent) Sample.profile
           invitation None None None None Sample.service Sample.public_did
           Sample.candidate (Sample.world [])).
  - repeat split; reflexivity.
  - reflexivity.
  - discriminate.
Defined.

(** ** Lookups and bounded waits *)

Section Waits.
Context {E : Type} `{Collaborators E}.
Variable profile : Profile.

Lemma find_first_active (tag_filter post_filter : list (Tag * option string))
    (l : list ConnRecord) :
  match List.find (fun c => bool_decide (state c = COMPLETED))
          (List.filter (fun c => matches tag_filter c && matches post_filter c) l) with
  | Some c =>
      exists l1 l2,
        l = (l1 ++ c :: l2)%list
        /\ active_match tag_filter post_filter c
        /\ Forall (fun c' => ~ active_match tag_filter post_filter c') l1
  | None => Forall (fun c' => ~ active_match tag_filter post_filter c') l
  end.
Proof.
  induction l as [|r l IH]; simpl; [constructor|].
  assert (Hskip : ~ active_match tag_filter post_filter r ->
    match List.find (fun c => bool_decide (state c = COMPLETED))
            (List.filter (fun c => matches tag_filter c && matches post_filter c) l) with
    | Some c =>
        exists l1 l2,
          r :: l = (l1 ++ c :: l2)%list
          /\ active_match tag_filter post_filter c
          /\ Forall (fun c' => ~ active_match tag_filter post_filter c') l1
    | None => Forall (fun c' => ~ active_match tag_filter post_filter c') (r :: l)
    end).
  { intros Hr. destruct (List.find _ _) as [c|].
    - destruct IH as (l1 & l2 & -> & Hc & Hl1).
      exists (r :: l1), l2. repeat split; try apply Hc. by constructor.
    - by constructor. }
  destruct (matches tag_filter r) eqn:Htag, (matches post_filter r) eqn:Hpost; simpl;
    try (apply Hskip; intros (? & ? & ?); congruence).
  case_bool_decide as Hstate.
  - exists [], l. by repeat split.
  - apply Hskip. intros (? & ? & ?); congruence.
Qed.

(** X7.  A lookup of an existing connection reads the store only, and
    what it returns is the first stored record that matches both filters
    and is active: every record before it fails a filter or is not
    active, and it returns nothing exactly when no stored record is an
    active match. *)
Theorem find_existing_connection_first_active
    (tag_filter post_filter : list (Tag * option string)) (w : World E) :
  snd (find_existing_connection tag_filter post_filter w) = w
  /\ match fst (find_existing_connection tag_filter post_filter w) with
     | Ok (Some c) =>
         exists l1 l2,
           conn_records w = (l1 ++ c :: l2)%list
           /\ active_match tag_filter post_filter c
           /\ Forall (fun c' => ~ active_match tag_filter post_filter c') l1
     | Ok None =>
         Forall (fun c' => ~ active_match tag_filter post_filter c') (conn_records w)
     | Raise _ => False
     end.
Proof.
  rewrite find_existing_connection_eq; simpl. split; [done|].
  apply find_first_active.
Qed.

Lemma check_reuse_msg_state_resolved (timeout : nat) (conn_rec : ConnRecord) (w : World E) :
  reuse_msg_state conn_rec w <> Some "initial" ->
  check_reuse_msg_state timeout conn_rec w = (Ok tt, w).
Proof.
  intros Hstate. unfold reuse_msg_state in Hstate.
  destruct timeout; simpl; by rewrite bool_decide_eq_true_2.
Qed.

Lemma check_reuse_msg_state_step (timeout : nat) (conn_rec : ConnRecord) (w : World E) :
  reuse_msg_state conn_rec w = Some "initial" ->
  check_reuse_msg_state (S timeout) conn_rec w
  = check_reuse_msg_state timeout conn_rec (tick w).
Proof.
  intros Hstate. unfold reuse_msg_state in Hstate.
  simpl. rewrite Hstate. by rewrite bool_decide_eq_false_2 by (intros Hne; by apply Hne).
Qed.

Lemma check_reuse_msg_state_cases (timeout : nat) (conn_rec : ConnRecord) (w : World E) :
  match check_reuse_msg_state timeout conn_rec w with
  | (Ok _, w') => reuse_msg_state conn_rec w' <> Some "initial"
  | (Raise e, w') => e = TimeoutError /\ reuse_msg_state conn_rec w' = Some "initial"
  end.
Proof.
  revert w. induction timeout as [|n IH]; intros w.
  - simpl. unfold reuse_msg_state. case_bool_decide as Hstate; [done|].
    split; [done|].
    by destruct (decide (conn_metadata w !! (connection_id conn_rec, "reuse_msg_state")
                         = Some "initial")).
  - destruct (decide (reuse_msg_state conn_rec w = Some "initial")) as [Hinit|Hother].
    + rewrite check_reuse_msg_state_step by done. apply IH.
    + by rewrite check_reuse_msg_state_resolved.
Qed.

Lemma check_reuse_msg_state_frame (timeout : nat) (conn_rec : ConnRecord) (w : World E) :
  let w' := snd (check_reuse_msg_state timeout conn_rec w) in
  outbox w' = outbox w /\ ext w' = ext w /\ uuids w' = uuids w.
Proof.
  revert w. induction timeout as [|n IH]; intros w; simpl.
  - by case_bool_decide.
  - case_bool_decide; [done|].
    destruct (IH (tick w)) as (-> & -> & ->). apply tick_frame.
Qed.

(** X8.  The wait for the reply to a reuse message has two outcomes
    only: it returns, in a world where [reuse_msg_state] of the
    connection is not [initial], or it times out, in a world where it
    still is.  It raises nothing else, and while it waits nothing is
    sent, no message identifier is drawn and no credential manager is
    called. *)
Theorem check_reuse_msg_state_outcome (timeout : nat) (conn_rec : ConnRecord) (w : World E) :
  match check_reuse_msg_state timeout conn_rec w with
  | (Ok _, w') =>
      reuse_msg_state conn_rec w' <> Some "initial"
      /\ outbox w' = outbox w /\ ext w' = ext w /\ uuids w' = uuids w
  | (Raise e, w') =>
      e = TimeoutError
      /\ reuse_msg_state conn_rec w' = Some "initial"
      /\ outbox w' = outbox w /\ ext w' = ext w /\ uuids w' = uuids w
  end.
Proof.
  pose proof (check_reuse_msg_state_cases timeout conn_rec w) as Hcases.
  pose proof (check_reuse_msg_state_frame timeout conn_rec w) as Hframe.
  destruct (check_reuse_msg_state timeout conn_rec w) as [[u|e] w']; simpl in Hframe.
  - by split.
  - destruct Hcases as [-> Hstate]. by repeat split; try apply Hframe.
Qed.

Lemma conn_rec_is_active_outcome (timeout : nat) (id : string) (w : World E) :
  match conn_rec_is_active timeout id w with
  | (Ok c, w') => is_ready c = true /\ find_record id (conn_records w') = Some c
  | (Raise e, w') =>
      (e = StorageNotFoundError /\ find_record id (conn_records w') = None)
      \/ (e = TimeoutError
          /\ exists c, find_record id (conn_records w') = Some c /\ is_ready c = false)
  end.
Proof.
  revert w. induction timeout as [|n IH]; intros w; simpl; unfold retrieve_by_id;
    destruct (find_record id (conn_records w)) as [c|] eqn:Hfind; try (by left);
    destruct (is_ready c) eqn:Hready; try done.
  - right. split; [done|]. by exists c.
  - apply IH.
Qed.

(** X9.  The wait for the connection to become active is best effort.
    It requests nothing of the responder and of the credential managers,
    and its timeout is never raised: it returns a record with the
    connection id it was given, which is the record it was given or a
    ready one read from the store, or it raises [StorageNotFoundError]
    because the store has no record under that id. *)
Theorem await_active_is_best_effort
    (auto_accept : option bool) (conn_rec : ConnRecord) (w : World E) :
  match await_active profile auto_accept conn_rec w with
  | (Ok c, w') =>
      connection_id c = connection_id conn_rec
      /\ (c = conn_rec \/ is_ready c = true)
      /\ outbox w' = outbox w /\ ext w' = ext w
  | (Raise e, w') =>
      e = StorageNotFoundError
      /\ find_record (connection_id conn_rec) (conn_records w') = None
      /\ outbox w' = outbox w /\ ext w' = ext w
  end.
Proof.
  pose proof (await_active_frame profile auto_accept conn_rec w) as Hframe.
  unfold await_active, try_except in *.
  destruct (is_true auto_accept || debug_auto_accept_invites (settings profile)).
  - pose proof (conn_rec_is_active_outcome 7 (connection_id conn_rec) w) as Hout.
    destruct (conn_rec_is_active 7 (connection_id conn_rec) w) as [[c|e] w'].
    + destruct Hout as [Hready Hfind]. split; [|split; [by right|done]].
      by apply find_record_id in Hfind.
    + destruct Hout as [[-> Hfind]|[-> _]].
      * done.
      * simpl in *. split; [done|]. split; [by left|done].
  - simpl in *. split; [done|]. split; [by left|done].
Qed.

End Waits.

(** ** The reuse message and its replies *)

Section ReuseExchange.
Context {E : Type} `{Collaborators E}.
Variable profile : Profile.

Lemma create_handshake_reuse_message_cases (invitation : InvitationMessage)
    (conn_rec : ConnRecord) (w : World E) :
  match fst (create_handshake_reuse_message profile invitation conn_rec w) with
  | Ok _ => True
  | Raise e => exists err, e = OutOfBandManagerError (HandshakeReuseFailed err)
  end.
Proof.
  unfold create_handshake_reuse_message, try_except, bind, new_id, ask.
  destruct (fetch_connection_targets conn_rec (with_uuids S w)) as [targets|e]; simpl.
  - by destruct (responder profile).
  - by exists e.
Qed.

(** X10.  The reuse negotiation never raises its timeout.  It returns
    the candidate it was given or no connection, and the only error it
    raises is the wrapped failure to create or send the reuse message. *)
Theorem negotiate_reuse_outcome (invitation : InvitationMessage) (conn_rec : ConnRecord)
    (w : World E) :
  match fst (negotiate_reuse profile invitation conn_rec w) with
  | Ok (Some c) => c = conn_rec
  | Ok None => True
  | Raise e => exists err, e = OutOfBandManagerError (HandshakeReuseFailed err)
  end.
Proof.
  pose proof (create_handshake_reuse_message_cases invitation conn_rec w) as Hsend.
  unfold negotiate_reuse, bind at 1.
  destruct (create_handshake_reuse_message profile invitation conn_rec w) as [[u|e] w1];
    simpl in Hsend; [|done].
  unfold try_except, bind at 1.
  pose proof (check_reuse_msg_state_cases 15 conn_rec w1) as Hwait.
  destruct (check_reuse_msg_state 15 conn_rec w1) as [[u'|e] w2].
  - unfold bind, metadata_delete, metadata_get; simpl. by case_bool_decide.
  - by destruct Hwait as [-> _].
Qed.

(** X11.  When the targets of the candidate cannot be fetched, the reuse
    message is not sent and nothing is written to the metadata; the
    failure is wrapped, the negotiation raises it without abandoning the
    candidate, and its kind is [ReuseNegotiationFailed]. *)
Theorem reuse_message_failure_is_wrapped (invitation : InvitationMessage)
    (conn_rec : ConnRecord) (e : Exc) (w : World E) :
  fetch_connection_targets conn_rec (with_uuids S w) = Raise e ->
  create_handshake_reuse_message profile invitation conn_rec w
  = (Raise (OutOfBandManagerError (HandshakeReuseFailed e)), with_uuids S w)
  /\ negotiate_reuse profile invitation conn_rec w
     = (Raise (OutOfBandManagerError (HandshakeReuseFailed e)), with_uuids S w)
  /\ kind (HandshakeReuseFailed e) = ReuseNegotiationFailed.
Proof.
  intros Hfetch.
  assert (Hsend : create_handshake_reuse_message profile invitation conn_rec w
                  = (Raise (OutOfBandManagerError (HandshakeReuseFailed e)),
                     with_uuids S w)).
  { unfold create_handshake_reuse_message, try_except, bind, new_id, ask.
    by rewrite Hfetch. }
  split; [done|]. split; [|done].
  unfold negotiate_reuse, bind at 1. by rewrite Hsend.
Qed.

(** X12.  Without a responder no reuse message is sent and no metadata
    is written, so the wait returns at once: unless a stale
    [reuse_msg_state] says otherwise, the candidate is reused without
    any exchange with the inviter. *)
Theorem reuse_without_responder (invitation : InvitationMessage) (conn_rec : ConnRecord)
    (targets : list string) (w : World E) :
  responder profile = false ->
  fetch_connection_targets conn_rec (with_uuids S w) = Ok targets ->
  reuse_msg_state conn_rec w <> Some "initial" ->
  reuse_msg_state conn_rec w <> Some "not_accepted" ->
  negotiate_reuse profile invitation conn_rec w
  = (Ok (Some conn_rec), without_reuse_metadata conn_rec (with_uuids S w))
  /\ outbox (without_reuse_metadata conn_rec (with_uuids S w)) = outbox w.
Proof.
  intros Hmute Hfetch Hinit Hrefused. split; [|done].
  apply negotiate_reuse_resolved; [|done].
  exists (with_uuids S w). split.
  - unfold create_handshake_reuse_message, try_except, bind, new_id, ask.
    by rewrite Hfetch, Hmute.
  - by apply check_reuse_msg_state_resolved.
Qed.

Lemma sent_world_state (conn_rec : ConnRecord) (id : string)
    (m : Message * list string) (w : World E) :
  let w1 :=
    with_conn_metadata (insert (connection_id conn_rec, "reuse_msg_state") "initial")
      (with_conn_metadata (insert (connection_id conn_rec, "reuse_msg_id") id)
         (with_outbox (fun o => (o ++ [m])%list) (with_uuids S w))) in
  reuse_msg_id conn_rec w1 = Some id /\ reuse_msg_state conn_rec w1 = Some "initial".
Proof.
  unfold reuse_msg_id, reuse_msg_state; simpl. split.
  - rewrite lookup_insert_ne by (symmetry; apply reuse_keys_differ).
    apply lookup_insert_eq.
  - apply lookup_insert_eq.
Qed.

(** X13.  The reply to a reuse message passes the thread guard of the
    waiting receipt: when the next inbound message is a
    [HandshakeReuseAccept] on the candidate threaded to the reuse message
    just sent, the negotiation returns the candidate, both reuse keys are
    gone from its metadata, the store holds the records it held, and the
    reuse message is the one thing sent. *)
Theorem matching_accept_resolves (invitation : InvitationMessage)
    (conn_rec stored : ConnRecord) (thread : Thread) (receipt : MessageReceipt)
    (rest : list Inbound) (targets : list string) (w : World E) :
  responder profile = true ->
  fetch_connection_targets conn_rec (with_uuids S w) = Ok targets ->
  find_record (connection_id conn_rec) (conn_records w) = Some stored ->
  inbound w = InReuseAccepted (connection_id conn_rec) thread receipt :: rest ->
  thid thread = Some (uuid4 (uuids w)) ->
  let r := negotiate_reuse profile invitation conn_rec w in
  fst r = Ok (Some conn_rec)
  /\ reuse_msg_id conn_rec (snd r) = None
  /\ reuse_msg_state conn_rec (snd r) = None
  /\ conn_records (snd r) = conn_records w
  /\ inbound (snd r) = rest
  /\ outbox (snd r)
     = (outbox w
        ++ [(HandshakeReuse (uuid4 (uuids w))
               {| thid := Some (uuid4 (uuids w));
                  pthid := invitation_msg_id conn_rec |}, targets)])%list.
Proof.
  intros Hresp Hfetch Hstored Hin Hthid r.
  pose proof (create_handshake_reuse_message_sent profile invitation conn_rec w targets
                Hresp Hfetch) as Hsent.
  set (m := (HandshakeReuse (uuid4 (uuids w))
               {| thid := Some (uuid4 (uuids w)); pthid := invitation_msg_id conn_rec |},
             targets)) in *.
  set (w1 := with_conn_metadata _ _) in Hsent.
  destruct (sent_world_state conn_rec (uuid4 (uuids w)) m w) as [Hid Hstate].
  fold w1 in Hid, Hstate.
  set (w2 := with_conn_metadata
               (insert (connection_id conn_rec, "reuse_msg_state") "accepted")
               (with_inbound (fun _ => rest) w1)).
  assert (Htick : tick w1 = w2).
  { unfold tick. replace (inbound w1) with (inbound w) by done. rewrite Hin; simpl.
    replace (conn_records (with_inbound (fun _ => rest) w1)) with (conn_records w) by done.
    rewrite Hstored.
    pose proof (find_record_id _ _ _ Hstored) as Hsame.
    rewrite thread_guard_passes.
    - simpl. unfold w2. by rewrite Hsame.
    - rewrite Hthid, Hsame. symmetry. exact Hid. }
  assert (Hends : negotiation_ends profile invitation conn_rec w (Ok tt) w2).
  { exists w1. split; [exact Hsent|].
    change 15 with (S 14). rewrite check_reuse_msg_state_step by exact Hstate.
    rewrite Htick. apply check_reuse_msg_state_resolved.
    unfold reuse_msg_state, w2; simpl. by rewrite lookup_insert_eq. }
  assert (Hr : r = (Ok (Some conn_rec), without_reuse_metadata conn_rec w2)).
  { subst r. apply negotiate_reuse_resolved; [exact Hends|].
    unfold reuse_msg_state, w2; simpl. by rewrite lookup_insert_eq. }
  rewrite Hr; simpl. split; [done|]. split; [|split].
  - apply (without_reuse_metadata_keys conn_rec w2).
  - apply (without_reuse_metadata_keys conn_rec w2).
  - done.
Qed.

Lemma tick_off_thread (conn_rec : ConnRecord) (id : string) (w : World E) :
  reuse_msg_id conn_rec w = Some id ->
  reuse_msg_state conn_rec w = Some "initial" ->
  Forall (off_thread conn_rec id) (inbound w) ->
  reuse_msg_id conn_rec (tick w) = Some id
  /\ reuse_msg_state conn_rec (tick w) = Some "initial"
  /\ Forall (off_thread conn_rec id) (inbound (tick w)).
Proof.
  intros Hid Hstate Hoff. unfold tick.
  destruct (inbound w) as [|ev rest] eqn:Hin; [by rewrite Hin|].
  inversion Hoff as [|? ? Hev Hrest]; subst.
  assert (Hreply : forall conn_id thread (state' : string) (c : ConnRecord),
    (conn_id = connection_id conn_rec -> thid thread <> Some id) ->
    connection_id c = conn_id ->
    let w0 := with_inbound (fun _ => rest) w in
    let w' :=
      if bool_decide (thid thread = conn_metadata w0 !! (connection_id c, "reuse_msg_id"))
      then with_conn_metadata (insert (connection_id c, "reuse_msg_state") state') w0
      else w0 in
    reuse_msg_id conn_rec w' = Some id
    /\ reuse_msg_state conn_rec w' = Some "initial"
    /\ Forall (off_thread conn_rec id) (inbound w')).
  { intros conn_id thread state' c Hthread Hc w0 w'. subst w'.
    case_bool_decide as Hguard; [|done].
    destruct (decide (conn_id = connection_id conn_rec)) as [Heq|Hne].
    - exfalso. apply (Hthread Heq). rewrite Hguard, Hc, Heq. exact Hid.
    - unfold reuse_msg_id, reuse_msg_state; simpl.
      rewrite !lookup_insert_ne by (intros [=]; congruence). done. }
  destruct ev as [conn_id thread receipt|conn_id thread receipt|conn_id st|]; simpl in *.
  - destruct (find_record conn_id (conn_records w)) as [c|] eqn:Hfind; [|done].
    pose proof (Hreply conn_id thread "accepted" c Hev (find_record_id _ _ _ Hfind))
      as Hkeep.
    unfold receive_reuse_accepted_message, try_except, bind, metadata_get, assert; simpl.
    simpl in Hkeep. by destruct (bool_decide _).
  - destruct (find_record conn_id (conn_records w)) as [c|] eqn:Hfind; [|done].
    pose proof (Hreply conn_id thread "not_accepted" c Hev (find_record_id _ _ _ Hfind))
      as Hkeep.
    unfold receive_problem_report, try_except, bind, metadata_get, assert; simpl.
    simpl in Hkeep. by destruct (bool_decide _).
  - by destruct (find_record conn_id (conn_records w)).
  - done.
Qed.

Lemma check_reuse_msg_state_off_thread (timeout : nat) (conn_rec : ConnRecord)
    (id : string) (w : World E) :
  reuse_msg_id conn_rec w = Some id ->
  reuse_msg_state conn_rec w = Some "initial" ->
  Forall (off_thread conn_rec id) (inbound w) ->
  exists w', check_reuse_msg_state timeout conn_rec w = (Raise TimeoutError, w').
Proof.
  revert w. induction timeout as [|n IH]; intros w Hid Hstate Hoff.
  - exists w. simpl. unfold reuse_msg_state in Hstate. by rewrite Hstate.
  - rewrite check_reuse_msg_state_step by done.
    destruct (tick_off_thread conn_rec id w Hid Hstate Hoff) as (? & ? & ?).
    by apply IH.
Qed.

(** X14.  Cross-talk does not resolve a negotiation.  When every reply
    that comes in is addressed to another connection or threaded to
    another message than the reuse message just sent, the wait times out
    as if nothing had come in, and the negotiation leaves no connection. *)
Theorem off_thread_replies_time_out (invitation : InvitationMessage)
    (conn_rec : ConnRecord) (targets : list string) (w : World E) :
  responder profile = true ->
  fetch_connection_targets conn_rec (with_uuids S w) = Ok targets ->
  Forall (off_thread conn_rec (uuid4 (uuids w))) (inbound w) ->
  (exists w', negotiation_ends profile invitation conn_rec w (Raise TimeoutError) w')
  /\ fst (negotiate_reuse profile invitation conn_rec w) = Ok None.
Proof.
  intros Hresp Hfetch Hoff.
  pose proof (create_handshake_reuse_message_sent profile invitation conn_rec w targets
                Hresp Hfetch) as Hsent.
  set (m := (HandshakeReuse (uuid4 (uuids w))
               {| thid := Some (uuid4 (uuids w)); pthid := invitation_msg_id conn_rec |},
             targets)) in *.
  set (w1 := with_conn_metadata _ _) in Hsent.
  destruct (sent_world_state conn_rec (uuid4 (uuids w)) m w) as [Hid Hstate].
  fold w1 in Hid, Hstate.
  destruct (check_reuse_msg_state_off_thread 15 conn_rec (uuid4 (uuids w)) w1 Hid Hstate)
    as [w' Hwait]; [done|].
  assert (Hends : negotiation_ends profile invitation conn_rec w (Raise TimeoutError) w').
  { by exists w1. }
  split; [by exists w'|].
  by rewrite (negotiate_reuse_timeout profile _ _ _ _ Hends).
Qed.

End ReuseExchange.

Lemma reuse_message_failure_is_wrapped_witness :
  let invitation := Sample.public_invitation "invi-1" [] in
  let w := Sample.world [] in
  let e := OtherError "no route to the connection" in
  create_handshake_reuse_message (H := Cases.unreachable) Sample.profile invitation
    Sample.candidate w
  = (Raise (OutOfBandManagerError (HandshakeReuseFailed e)), with_uuids S w)
  /\ negotiate_reuse (H := Cases.unreachable) Sample.profile invitation Sample.candidate w
     = (Raise (OutOfBandManagerError (HandshakeReuseFailed e)), with_uuids S w)
  /\ kind (HandshakeReuseFailed e) = ReuseNegotiationFailed.
Proof.
  intros invitation w e.
  apply (reuse_message_failure_is_wrapped (H := Cases.unreachable) Sample.profile
           invitation Sample.candidate e w).
  reflexivity.
Defined.

Lemma reuse_without_responder_witness :
  let invitation := Sample.public_invitation "invi-1" [] in
  let w := Sample.world [] in
  negotiate_reuse (H := Sample.agent) Cases.mute invitation Sample.candidate w
  = (Ok (Some Sample.candidate),
     without_reuse_metadata Sample.candidate (with_uuids S w))
  /\ outbox (without_reuse_metadata Sample.candidate (with_uuids S w)) = outbox w.
Proof.
  intros invitation w.
  apply (reuse_without_responder (H := Sample.agent) Cases.mute invitation
           Sample.candidate ["conn-existing"] w).
  - reflexivity.
  - reflexivity.
  - vm_compute. discriminate.
  - vm_compute. discriminate.
Defined.

Lemma matching_accept_resolves_witness :
  let invitation := Sample.public_invitation "invi-1" [] in
  let w := Sample.world [Sample.accept 0; Sample.refuse 1] in
  let r := negotiate_reuse (H := Sample.agent) Sample.profile invitation Sample.candidate w in
  fst r = Ok (Some Sample.candidate)
  /\ reuse_msg_id Sample.candidate (snd r) = None
  /\ reuse_msg_state Sample.candidate (snd r) = None
  /\ conn_records (snd r) = conn_records w
  /\ inbound (snd r) = [Sample.refuse 1]
  /\ outbox (snd r)
     = (outbox w
        ++ [(HandshakeReuse "msg-" {| thid := Some "msg-"; pthid := Some "invi-0" |},
             ["conn-existing"])])%list.
Proof.
  intros invitation w.
  apply (matching_accept_resolves (H := Sample.agent) Sample.profile invitation
           Sample.candidate Sample.candidate
           {| thid := Some "msg-"; pthid := Some "invi-0" |}
           {| sender_did := "their-did" |} [Sample.refuse 1] ["conn-existing"] w);
    reflexivity.
Defined.

Lemma off_thread_replies_time_out_witness :
  let invitation := Sample.public_invitation "invi-1" [] in
  let w :=
    Sample.world
      [Sample.accept 3;
       InProblemReport "conn-other" {| thid := Some "msg-"; pthid := None |}
         {| sender_did := "somebody" |}] in
  (exists w',
     negotiation_ends (H := Sample.agent) Sample.profile invitation Sample.candidate w
       (Raise TimeoutError) w')
  /\ fst (negotiate_reuse (H := Sample.agent) Sample.profile invitation
            Sample.candidate w) = Ok None.
Proof.
  intros invitation w.
  apply (off_thread_replies_time_out (H := Sample.agent) Sample.profile invitation
           Sample.candidate ["conn-existing"] w).
  - reflexivity.
  - reflexivity.
  - repeat constructor; simpl; intros; discriminate.
Defined.

(** ** The timeout of the reuse negotiation *)

Section Timeout.
Context {E : Type} `{Collaborators E}.
Variable profile : Profile.






End Timeout.



(** ** The inviter's side of a reuse *)

Section InviterSide.
Context {E : Type} `{Collaborators E}.
Variable profile : Profile.

(** X15.  Handling a reuse message never writes to the connection store
    or to the metadata and calls no credential manager.  It sends nothing
    or exactly one message, and that message is a [HandshakeReuseAccept]
    with the thread id and the parent thread id of the reuse message. *)
Theorem receive_reuse_message_only_replies
    (reuse_msg : Thread) (receipt : MessageReceipt) (w : World E) :
  let r := receive_reuse_message profile reuse_msg receipt w in
  conn_records (snd r) = conn_records w
  /\ conn_metadata (snd r) = conn_metadata w
  /\ ext (snd r) = ext w
  /\ (outbox (snd r) = outbox w
      \/ exists id targets,
           outbox (snd r)
           = (outbox w
              ++ [(HandshakeReuseAccept id
                     {| thid := thid reuse_msg; pthid := pthid reuse_msg |},
                   targets)])%list).
Proof.
  intros r.
  assert (Hr : forall w', w' = snd r ->
               w' = w \/ w' = with_uuids S w
               \/ exists targets,
                    w' = with_outbox
                           (fun o =>
                              (o ++ [(HandshakeReuseAccept (uuid4 (uuids w))
                                        {| thid := thid reuse_msg;
                                           pthid := pthid reuse_msg |},
                                      targets)])%list)
                           (with_uuids S w)).
  { intros w' Hw'. subst r. revert Hw'.
    unfold receive_reuse_message, try_except, bind at 1.
    rewrite find_existing_connection_eq.
    destruct (List.find _ _) as [c|].
    - unfold bind, new_id, ask.
      destruct (fetch_connection_targets c (with_uuids S w)) as [targets|e]; simpl.
      + destruct (responder profile); simpl; intros ->;
          [right; right; by eexists|right; by left].
      + destruct e; simpl; intros ->; right; by left.
    - unfold bind at 1. rewrite find_existing_connection_eq.
      destruct (List.find _ _) as [c|]; [|simpl; intros ->; by left].
      unfold bind, new_id, ask.
      destruct (fetch_connection_targets c (with_uuids S w)) as [targets|e]; simpl.
      + destruct (responder profile); simpl; intros ->;
          [right; right; by eexists|right; by left].
      + destruct e; simpl; intros ->; right; by left. }
  destruct (Hr (snd r) eq_refl) as [->|[->|[targets ->]]]; simpl.
  - do 3 (split; [done|]). by left.
  - do 3 (split; [done|]). by left.
  - do 3 (split; [done|]). right. eauto.
Qed.

(** X16.  A reuse message whose invitation id matches no active
    connection is still accepted when the sender is the peer of an
    active connection: the acceptance goes to the targets of that
    connection, threaded to the reuse message. *)
Theorem reuse_message_matched_by_sender
    (reuse_msg : Thread) (receipt : MessageReceipt) (conn_record : ConnRecord)
    (targets : list string) (w : World E) :
  responder profile = true ->
  find_existing_connection [] [(InvitationMsgId, pthid reuse_msg)] w = (Ok None, w) ->
  find_existing_connection [(TheirDid, Some (sender_did receipt))] [] w
    = (Ok (Some conn_record), w) ->
  fetch_connection_targets conn_record (with_uuids S w) = Ok targets ->
  receive_reuse_message profile reuse_msg receipt w
  = (Ok tt,
     with_outbox
       (fun o =>
          (o ++ [(HandshakeReuseAccept (uuid4 (uuids w))
                    {| thid := thid reuse_msg; pthid := pthid reuse_msg |},
                  targets)])%list)
       (with_uuids S w)).
Proof.
  intros Hresp Hfirst Hsecond Htargets.
  unfold receive_reuse_message, try_except, bind at 1. rewrite Hfirst.
  unfold bind at 1. rewrite Hsecond.
  unfold bind, new_id, ask. by rewrite Htargets, Hresp.
Qed.

(** X17.  A reply threaded to the stored [reuse_msg_id] is taken: an
    acceptance sets [reuse_msg_state] to [accepted], a problem report
    sets it to [not_accepted], and no other key of the metadata changes. *)
Theorem matching_replies_set_the_state
    (msg : Thread) (receipt : MessageReceipt) (conn_record : ConnRecord)
    (key : string * string) (w : World E) :
  thid msg = reuse_msg_id conn_record w ->
  key <> (connection_id conn_record, "reuse_msg_state") ->
  let accepted := receive_reuse_accepted_message msg receipt conn_record w in
  let refused := receive_problem_report msg receipt conn_record w in
  fst accepted = Ok tt
  /\ reuse_msg_state conn_record (snd accepted) = Some "accepted"
  /\ conn_metadata (snd accepted) !! key = conn_metadata w !! key
  /\ fst refused = Ok tt
  /\ reuse_msg_state conn_record (snd refused) = Some "not_accepted"
  /\ conn_metadata (snd refused) !! key = conn_metadata w !! key.
Proof.
  intros Hthid Hkey accepted refused. subst accepted refused.
  unfold receive_reuse_accepted_message, receive_problem_report.
  unfold try_except, bind, metadata_get, assert; simpl.
  unfold reuse_msg_id in Hthid. rewrite bool_decide_eq_true_2 by done; simpl.
  unfold reuse_msg_state; simpl.
  rewrite !lookup_insert_eq, !lookup_insert_ne by done. done.
Qed.

End InviterSide.

Lemma reuse_message_matched_by_sender_witness :
  let reuse_msg := {| thid := Some "reuse-1"; pthid := Some "invi-unknown" |} in
  let receipt := {| sender_did := "their-did" |} in
  let w := Sample.world [] in
  receive_reuse_message (H := Sample.agent) Sample.profile reuse_msg receipt w
  = (Ok tt,
     with_outbox
       (fun o =>
          (o ++ [(HandshakeReuseAccept "msg-"
                    {| thid := Some "reuse-1"; pthid := Some "invi-unknown" |},
                  ["conn-existing"])])%list)
       (with_uuids S w)).
Proof.
  intros reuse_msg receipt w.
  apply (reuse_message_matched_by_sender (H := Sample.agent) Sample.profile reuse_msg
           receipt Sample.candidate ["conn-existing"] w);
    reflexivity.
Defined.

Lemma matching_replies_set_the_state_witness :
  let msg := {| thid := Some "msg-1"; pthid := Some "invi-0" |} in
  let receipt := {| sender_did := "their-did" |} in
  let key := ("conn-existing", "reuse_msg_id") in
  let w := Fixtures.negotiating in
  let accepted := receive_reuse_accepted_message msg receipt Sample.candidate w in
  let refused := receive_problem_report msg receipt Sample.candidate w in
  (reuse_msg_id Sample.candidate w = Some "msg-1"
   /\ reuse_msg_state Sample.candidate w = Some "initial")
  /\ fst accepted = Ok tt
  /\ reuse_msg_state Sample.candidate (snd accepted) = Some "accepted"
  /\ conn_metadata (snd accepted) !! key = conn_metadata w !! key
  /\ fst refused = Ok tt
  /\ reuse_msg_state Sample.candidate (snd refused) = Some "not_accepted"
  /\ conn_metadata (snd refused) !! key = conn_metadata w !! key.
Proof.
  intros msg receipt key w. split.
  - split; vm_compute; reflexivity.
  - apply (matching_replies_set_the_state msg receipt Sample.candidate key w).
    + vm_compute; reflexivity.
    + discriminate.
Defined.

(** ** Attachment handlers *)

Section Handlers.
Context {E : Type} `{Collaborators E}.
Variable profile : Profile.

(** X18.  With auto-respond configured but a connection that is not
    ready, both credential-offer handlers receive the offer and stop
    there: they return without an error, and no credential request is
    created or sent. *)
Theorem unready_connection_gets_no_request
    (req_attach : AttachContent) (conn_rec : ConnRecord) (trace : bool)
    (w : World E) (cred_ex_record : CredExRecord) (e' : E) :
  debug_auto_respond_credential_offer (settings profile) = true ->
  is_ready conn_rec = false ->
  (v10_receive_offer req_attach trace (connection_id conn_rec) (ext w)
     = (Ok cred_ex_record, e') ->
   _process_cred_offer_v1 profile req_attach conn_rec trace w
   = (Ok tt, with_ext (fun _ => e') w))
  /\ (v20_receive_offer req_attach trace (connection_id conn_rec) (ext w)
        = (Ok cred_ex_record, e') ->
      _process_cred_offer_v2 profile req_attach conn_rec trace w
      = (Ok tt, with_ext (fun _ => e') w)).
Proof.
  intros Hon Hready. split; intros Hrecv.
  - unfold _process_cred_offer_v1, bind, call. by rewrite Hrecv, Hon, Hready.
  - unfold _process_cred_offer_v2, bind, call. by rewrite Hrecv, Hon, Hready.
Qed.

(** X19.  With auto-respond configured, a ready connection and a
    responder, both credential-offer handlers receive the offer, have the
    credential manager create the request for the connection's own DID,
    and send exactly that request to the targets of the connection. *)
Theorem ready_connection_gets_request
    (req_attach : AttachContent) (conn_rec : ConnRecord) (trace : bool)
    (w : World E) (received requested : CredExRecord) (e1 e2 : E)
    (cred_request_message : string) (targets : list string) :
  debug_auto_respond_credential_offer (settings profile) = true ->
  is_ready conn_rec = true ->
  responder profile = true ->
  fetch_connection_targets conn_rec (with_ext (fun _ => e2) (with_ext (fun _ => e1) w))
    = Ok targets ->
  let sent :=
    with_outbox (fun o => (o ++ [(CredentialRequest cred_request_message, targets)])%list)
      (with_ext (fun _ => e2) (with_ext (fun _ => e1) w)) in
  (v10_receive_offer req_attach trace (connection_id conn_rec) (ext w)
     = (Ok received, e1) ->
   v10_create_request received (my_did conn_rec) e1
     = (Ok (requested, cred_request_message), e2) ->
   _process_cred_offer_v1 profile req_attach conn_rec trace w = (Ok tt, sent))
  /\ (v20_receive_offer req_attach trace (connection_id conn_rec) (ext w)
        = (Ok received, e1) ->
      v20_create_request received (my_did conn_rec) e1
        = (Ok (requested, cred_request_message), e2) ->
      _process_cred_offer_v2 profile req_attach conn_rec trace w = (Ok tt, sent)).
Proof.
  intros Hon Hready Hresp Htargets sent. split; intros Hrecv Hreq.
  - unfold _process_cred_offer_v1, bind, call, ask. rewrite Hrecv, Hon, Hready; simpl.
    rewrite Hreq, Hresp; simpl. by rewrite Htargets.
  - unfold _process_cred_offer_v2, bind, call, ask. rewrite Hrecv, Hon, Hready; simpl.
    rewrite Hreq, Hresp; simpl. by rewrite Htargets.
Qed.

(** X20.  Both presentation-request handlers hand the request to the
    presentation manager first and decide on the record it returns: when
    that record does not ask for an automatic presentation, the handler
    raises the auto-present error in the world the manager left, and
    nothing is sent. *)
Theorem presentation_request_refused
    (req_attach : AttachContent) (service : ServiceMessage) (conn_rec : ConnRecord)
    (trace : bool) (w : World E) (indy_proof_request : string)
    (received : PresExRecord) (e' : E) :
  let pres_ex_record :=
    {| pres_connection_id := connection_id conn_rec;
       pres_thread_id := content_id req_attach;
       pres_request := req_attach;
       pres_service := service;
       auto_present := debug_auto_respond_presentation_request (settings profile);
       pres_trace := trace |} in
  auto_present received = false ->
  (indy_proof_request_of req_attach = Ok indy_proof_request ->
   v10_receive_request pres_ex_record (ext w) = (Ok received, e') ->
   _process_pres_request_v1 profile req_attach service conn_rec trace w
   = (Raise (OutOfBandManagerError AutoPresentFalse), with_ext (fun _ => e') w))
  /\ (v20_receive_pres_request pres_ex_record (ext w) = (Ok received, e') ->
      _process_pres_request_v2 profile req_attach service conn_rec trace w
      = (Raise (OutOfBandManagerError AutoPresentFalse20), with_ext (fun _ => e') w))
  /\ kind AutoPresentFalse = AutoRespondDisabled
  /\ kind AutoPresentFalse20 = AutoRespondDisabled.
Proof.
  intros pres_ex_record Hoff. split; [|split; [|done]].
  - intros Hparse Hrecv.
    unfold _process_pres_request_v1, bind at 1, ask. rewrite Hparse.
    unfold bind at 1, call. fold pres_ex_record. rewrite Hrecv. by rewrite Hoff.
  - intros Hrecv.
    unfold _process_pres_request_v2, bind at 1, call. fold pres_ex_record.
    rewrite Hrecv. by rewrite Hoff.
Qed.

(** X21.  When the version 1 presentation manager asks for an automatic
    presentation but the credentials for the proof request cannot be
    selected ([ValueError]), the handler raises the cannot-auto-respond
    error, of kind [CannotAutoPresent]: the request has been received,
    no presentation is created and nothing is sent. *)
Theorem presentation_cannot_be_built
    (req_attach : AttachContent) (service : ServiceMessage) (conn_rec : ConnRecord)
    (trace : bool) (w : World E) (indy_proof_request : string)
    (received : PresExRecord) (e' : E) :
  let pres_ex_record :=
    {| pres_connection_id := connection_id conn_rec;
       pres_thread_id := content_id req_attach;
       pres_request := req_attach;
       pres_service := service;
       auto_present := debug_auto_respond_presentation_request (settings profile);
       pres_trace := trace |} in
  indy_proof_request_of req_attach = Ok indy_proof_request ->
  v10_receive_request pres_ex_record (ext w) = (Ok received, e') ->
  auto_present received = true ->
  indy_proof_req_preview2indy_requested_creds indy_proof_request e' = Raise ValueError ->
  _process_pres_request_v1 profile req_attach service conn_rec trace w
  = (Raise (OutOfBandManagerError CannotAutoRespondPresentation),
     with_ext (fun _ => e') w)
  /\ outbox (with_ext (fun _ => e') w) = outbox w
  /\ kind CannotAutoRespondPresentation = CannotAutoPresent.
Proof.
  intros pres_ex_record Hparse Hrecv Hauto Hcreds. split; [|done].
  unfold _process_pres_request_v1, bind at 1, ask. rewrite Hparse.
  unfold bind at 1, call. fold pres_ex_record. rewrite Hrecv, Hauto.
  unfold bind at 1, try_except; simpl. by rewrite Hcreds.
Qed.

End Handlers.

Lemma unready_connection_gets_no_request_witness :
  let received :=
    {| cred_connection_id := "conn-pending"; cred_offer := Cases.offer;
       cred_trace := false |} in
  _process_cred_offer_v1 (H := Sample.agent) Cases.eager Cases.offer Cases.pending false
    Sample.empty_world
  = (Ok tt, with_ext (fun _ => [received]) Sample.empty_world).
Proof.
  intros received.
  apply (proj1 (unready_connection_gets_no_request (H := Sample.agent) Cases.eager
                  Cases.offer Cases.pending false Sample.empty_world received [received]
                  eq_refl eq_refl)).
  reflexivity.
Defined.

Lemma ready_connection_gets_request_witness :
  let received :=
    {| cred_connection_id := "conn-existing"; cred_offer := Cases.offer;
       cred_trace := false |} in
  let w := Sample.world [] in
  _process_cred_offer_v2 (H := Sample.agent) Cases.eager Cases.offer Sample.candidate false w
  = (Ok tt,
     with_outbox
       (fun o =>
          (o ++ [(CredentialRequest "credential-request", ["conn-existing"])])%list)
       (with_ext (fun _ => [received]) (with_ext (fun _ => [received]) w))).
Proof.
  intros received w.
  apply (proj2 (ready_connection_gets_request (H := Sample.agent) Cases.eager
                  Cases.offer Sample.candidate false w received received
                  [received] [received] "credential-request" ["conn-existing"]
                  eq_refl eq_refl eq_refl eq_refl));
    reflexivity.
Defined.

Lemma presentation_request_refused_witness :
  let w := Sample.world [] in
  _process_pres_request_v1 (H := Sample.agent) Sample.profile Cases.proof_request
    Sample.service Sample.candidate false w
  = (Raise (OutOfBandManagerError AutoPresentFalse), with_ext (fun _ => []) w).
Proof.
  intros w.
  apply (proj1 (presentation_request_refused (H := Sample.agent) Sample.profile
                  Cases.proof_request Sample.service Sample.candidate false w
                  "proof request"
                  {| pres_connection_id := "conn-existing";
                     pres_thread_id := "request-1";
                     pres_request := Cases.proof_request;
                     pres_service := Sample.service;
                     auto_present := false;
                     pres_trace := false |}
                  [] eq_refl));
    reflexivity.
Defined.

Lemma presentation_cannot_be_built_witness :
  let w := Sample.world [] in
  _process_pres_request_v1 (H := Sample.agent) Cases.eager Cases.proof_request
    Sample.service Sample.candidate false w
  = (Raise (OutOfBandManagerError CannotAutoRespondPresentation),
     with_ext (fun _ => []) w)
  /\ outbox (with_ext (fun _ => []) w) = outbox w
  /\ kind CannotAutoRespondPresentation = CannotAutoPresent.
Proof.
  intros w.
  apply (presentation_cannot_be_built (H := Sample.agent) Cases.eager
           Cases.proof_request Sample.service Sample.candidate false w
           "proof request"
           {| pres_connection_id := "conn-existing";
              pres_thread_id := "request-1";
              pres_request := Cases.proof_request;
              pres_service := Sample.service;
              auto_present := true;
              pres_trace := false |}
           []);
    reflexivity.
Defined.

(** ** The checks of create_invitation *)

Section CreateInvitationChecks.
Context {E : Type} `{Collaborators E}.
Variable profile : Profile.
Variable build_invitation :
  option string -> option string -> bool -> bool -> list HSProto -> bool ->
  option string -> list (string * string) -> list (string * string) ->
  option string -> M E InvitationRecord.

(** X22.  The checks of [create_invitation], in their order, once the
    mediation lookup has succeeded.  An invitation with neither handshake
    protocol nor attachment is refused first, whatever the flags; then a
    public multi-use invitation; then a public invitation with metadata.
    Past the checks the invitation is built with the accept policy the
    caller gave, and with the configured default only when the caller gave
    none. *)
Theorem create_invitation_checks
    (my_label my_endpoint : option string) (auto_accept : option bool)
    (public multi_use : bool) (hs_protos : list HSProto) (alias : option string)
    (attachments metadata : list (string * string))
    (mediation_id mediation_record : option string) (w : World E) :
  mediation_record_if_id mediation_id true w = Ok mediation_record ->
  create_invitation profile build_invitation my_label my_endpoint auto_accept public
    hs_protos multi_use alias attachments metadata mediation_id w
  = match hs_protos, attachments with
    | [], [] => (Raise (OutOfBandManagerError MustIncludeProtocolsOrAttachments), w)
    | _, _ =>
        if public && multi_use
        then (Raise (OutOfBandManagerError PublicWithMultiUse), w)
        else if public && negb (bool_decide (metadata = []))
        then (Raise (OutOfBandManagerError PublicWithMetadata), w)
        else
          build_invitation my_label my_endpoint
            (match auto_accept with
             | Some accept => accept
             | None => debug_auto_accept_requests (settings profile)
             end)
            public hs_protos multi_use alias attachments metadata mediation_record w
    end.
Proof.
  intros Hmed. unfold create_invitation, bind at 1, ask. rewrite Hmed.
  assert (Haccept :
    is_true auto_accept
    || (bool_decide (auto_accept = None) && debug_auto_accept_requests (settings profile))
    = match auto_accept with
      | Some accept => accept
      | None => debug_auto_accept_requests (settings profile)
      end).
  { destruct auto_accept as [[|]|]; simpl; try done. }
  rewrite Haccept.
  assert (Hpast : forall b : bool,
    (if negb b then raise (OutOfBandManagerError MustIncludeProtocolsOrAttachments)
     else @bind E unit _
            (if public
             then if multi_use then raise (OutOfBandManagerError PublicWithMultiUse)
                  else if (0 <? length metadata)%nat
                       then raise (OutOfBandManagerError PublicWithMetadata)
                       else ret tt
             else ret tt)
            (fun _ =>
               build_invitation my_label my_endpoint
                 (match auto_accept with
                  | Some accept => accept
                  | None => debug_auto_accept_requests (settings profile)
                  end)
                 public hs_protos multi_use alias attachments metadata
                 mediation_record)) w
    = if negb b then (Raise (OutOfBandManagerError MustIncludeProtocolsOrAttachments), w)
      else if public && multi_use
      then (Raise (OutOfBandManagerError PublicWithMultiUse), w)
      else if public && negb (bool_decide (metadata = []))
      then (Raise (OutOfBandManagerError PublicWithMetadata), w)
      else
        build_invitation my_label my_endpoint
          (match auto_accept with
           | Some accept => accept
           | None => debug_auto_accept_requests (settings profile)
           end)
          public hs_protos multi_use alias attachments metadata mediation_record w).
  { intros [|]; simpl; [|done].
    unfold bind. destruct public, multi_use, metadata; simpl; try done. }
  rewrite Hpast.
  destruct hs_protos, attachments; simpl; done.
Qed.

End CreateInvitationChecks.

Lemma create_invitation_checks_witness :
  create_invitation (H := Sample.agent) Sample.profile Sample.build_invitation
    (Some "label") None None true [RFC23] false None [] [("purpose", "demo")] None
    Sample.empty_world
  = (Raise (OutOfBandManagerError PublicWithMetadata), Sample.empty_world).
Proof.
  apply (create_invitation_checks (H := Sample.agent) Sample.profile
           Sample.build_invitation (Some "label") None None true false [RFC23] None []
           [("purpose", "demo")] None None Sample.empty_world).
  reflexivity.
Defined.

(** ** Pure helpers *)

Lemma append_nil (s : string) : "" ++ s = s.
Proof. reflexivity. Qed.

Lemma append_cons (a : ascii) (s t : string) : String a s ++ t = String a (s ++ t).
Proof. reflexivity. Qed.

Lemma append_empty (s : string) : s ++ "" = s.
Proof.
  induction s as [|a s IH]; [done|]. by rewrite append_cons, IH.
Qed.

Lemma append_cons_assoc (acc : string) (c : ascii) (s : string) :
  (acc ++ String c "") ++ s = acc ++ String c s.
Proof.
  induction acc as [|a acc IH].
  - by rewrite !append_nil, append_cons, append_nil.
  - by rewrite !append_cons, IH.
Qed.

Lemma last_segment_from_plain (acc s : string) :
  has_colon s = false -> last_segment_from acc s = acc ++ s.
Proof.
  revert acc. induction s as [|c s IH]; intros acc Hplain; simpl in *.
  - by rewrite append_empty.
  - apply orb_false_iff in Hplain as [Hc Hs]. rewrite Hc.
    rewrite IH by done. apply append_cons_assoc.
Qed.

Lemma last_segment_from_colon (acc prefix s : string) :
  last_segment_from acc (prefix ++ String ":" s) = last_segment_from "" s.
Proof.
  revert acc. induction prefix as [|c prefix IH]; intros acc.
  - by rewrite append_nil.
  - rewrite append_cons; simpl. destruct (Ascii.eqb c ":"); apply IH.
Qed.

(** X23.  The public DID taken from a service DID is what follows its
    last colon: a colon-free suffix after a colon is returned whole,
    whatever precedes it, and a string without a colon is returned as it
    is. *)
Theorem last_segment_after_last_colon (prefix suffix : string) :
  has_colon suffix = false ->
  last_segment (prefix ++ String ":" suffix) = suffix
  /\ last_segment suffix = suffix
  /\ has_colon (last_segment (prefix ++ String ":" suffix)) = false.
Proof.
  intros Hplain.
  assert (Hsuffix : last_segment suffix = suffix).
  { unfold last_segment. by rewrite last_segment_from_plain. }
  assert (Hlast : last_segment (prefix ++ String ":" suffix) = suffix).
  { unfold last_segment. rewrite last_segment_from_colon. exact Hsuffix. }
  split; [done|]. split; [done|]. by rewrite Hlast.
Qed.

Lemma last_segment_after_last_colon_witness :
  last_segment ("did:sov" ++ String ":" "WgWxqztrNooG92RXvxSTWv")
  = "WgWxqztrNooG92RXvxSTWv"
  /\ last_segment "WgWxqztrNooG92RXvxSTWv" = "WgWxqztrNooG92RXvxSTWv"
  /\ has_colon (last_segment ("did:sov" ++ String ":" "WgWxqztrNooG92RXvxSTWv")) = false.
Proof.
  apply (last_segment_after_last_colon "did:sov" "WgWxqztrNooG92RXvxSTWv").
  reflexivity.
Defined.

Lemma fromkeys_NoDup_id (l : list string) : NoDup l -> fromkeys l = l.
Proof.
  induction 1 as [|x l Hx _ IH]; [done|].
  rewrite fromkeys_cons, IH. f_equal. by apply filter_other_id.
Qed.

(** X24.  The handshake protocols of an invitation are deduplicated by
    name before the loop: the list of names tried has no repetition and
    the same members as the list on the invitation, a list that has no
    repetition is left as it is, and deduplicating twice changes
    nothing. *)
Theorem fromkeys_deduplicates (l : list string) :
  NoDup (fromkeys l)
  /\ (forall x, x ∈ fromkeys l <-> x ∈ l)
  /\ (NoDup l -> fromkeys l = l)
  /\ fromkeys (fromkeys l) = fromkeys l.
Proof.
  split; [apply fromkeys_from_NoDup|]. split; [apply fromkeys_elem|].
  split; [apply fromkeys_NoDup_id|].
  apply fromkeys_NoDup_id, fromkeys_from_NoDup.
Qed.

Lemma fromkeys_deduplicates_witness :
  let l := ["didexchange/1.0"; "connections/1.0"; "didexchange/1.0"] in
  fromkeys (fromkeys l) = fromkeys l.
Proof.
  intros l. apply (fromkeys_deduplicates l).
Defined.
